(** * Observability demo service: request middleware and route handlers

    A shallow embedding of [src/app/index.js] (an Express application
    instrumented with the OpenTelemetry API).  Handlers are computations in a
    small state-and-exception monad over a [World] that carries

    - the environment's answers ([Date.now()], [Math.random()],
      [process.memoryUsage()], the ambient active span, exceptions raised by
      the runtime), as oracles read through a cursor;
    - the response object of the request being served;
    - the log of every telemetry, console, timer and response call made so
      far, newest first.

    JavaScript numbers are rationals ([Q]).  The products and sums the
    handlers compute on random draws are rounded to binary64, to nearest with
    ties to even, as the engine does; no value of this program comes near
    the overflow threshold, so infinities are not modelled.  Quotients of an
    integer by 1000 or by a power of two are kept as the rational they
    denote.

    The response is written through Express: [res.json] answers a fresh
    conditional GET with 304 and no body, and the ['finish'] listeners run
    only if the response reaches the client. *)

From Stdlib Require Import ZArith QArith Qround Qpower Lia Lqa.
From stdpp Require Import base strings list gmap pretty.
From Equations Require Import Equations.

Set Default Proof Using "Type".

(** ** Data *)

(** A JavaScript [Error]: message and stack trace. *)
Record Error := mkError { err_message : string; err_stack : string }.

(** [new Error(msg)]; of the stack only the header line is modelled. *)
Definition new_Error (msg : string) : Error :=
  {| err_message := msg; err_stack := "Error: " +:+ msg |}.

(** Span attribute values. *)
Inductive AttrValue :=
| AStr (s : string)
| ANum (q : Q).

Abbreviation Attrs := (list (string * AttrValue)).
Abbreviation Tags := (list (string * string)).

(** Response bodies. *)
#[warnings="-register-all"]
Inductive json :=
| JStr (s : string)
| JNum (q : Q)
| JBool (b : bool)
| JArr (items : list json)
| JObj (fields : list (string * json)).

(** Spans visible to the application: the span the auto-instrumentation has
    made active (if the SDK was preloaded), and the spans the application
    itself starts with [tracer.startSpan], numbered in creation order.
    [tracer.startSpan] does not change the active span. *)
Inductive SpanId :=
| AutoSpan (n : nat)
| AppSpan (n : nat).

Global Instance SpanId_eq_dec : EqDecision SpanId.
Proof. solve_decision. Defined.

Inductive InstrumentKind := Counter | Histogram | UpDownCounter | Gauge.

Global Instance InstrumentKind_eq_dec : EqDecision InstrumentKind.
Proof. solve_decision. Defined.

Record Instrument := { ins_kind : InstrumentKind; ins_name : string }.

(** Arguments of [console.error]. *)
Inductive LogArg :=
| LStr (s : string)
| LErr (e : Error).

(** Everything the service does to the outside world. *)
Inductive Event :=
| EStartSpan (s : SpanId) (name : string)
| ESetAttributes (s : SpanId) (attrs : Attrs)
| EAddEvent (s : SpanId) (name : string) (attrs : Attrs)
| ERecordException (s : SpanId) (e : Error)
| ESetStatus (s : SpanId) (code : Z) (message : option string)
| EEndSpan (s : SpanId)
| ECreate (k : InstrumentKind) (name : string)
| EAdd (i : Instrument) (delta : Z) (tags : Tags)
| ERecord (i : Instrument) (value : Q) (tags : Tags)
| EConsoleError (label : string) (arg : LogArg)
| ETimeout (ms : Z)
| ESend (status : Z) (body : json).

(** [process.memoryUsage()], in bytes. *)
Record MemoryUsage := {
  rss : Z;
  heapTotal : Z;
  heapUsed : Z;
  external : Z;
  arrayBuffers : Z
}.

(** The parts of an Express request the service reads.  Header names are
    stored in lower case, as Node does. *)
Record Request := {
  req_method : string;
  req_path : string;
  req_url : string;
  req_headers : gmap string string
}.

(** The closure registered with [res.on('finish', ...)]: its captured
    variables. *)
Record FinishHook := {
  fh_startTime : Z;
  fh_span : SpanId;
  fh_req : Request
}.

(** The response object.  [res_body] is the entity Express has settled on
    (for a HEAD request Node sends its headers only); [res_req] is the
    request being answered ([res.req]). *)
Record Response := {
  statusCode : Z;
  content_length_header : option string;
  res_body : option json;
  headersSent : bool;
  finish_listeners : list FinishHook;
  res_req : Request
}.

(** The response Express creates for a request. *)
Definition new_response (req : Request) : Response :=
  {| statusCode := 200; content_length_header := None; res_body := None;
     headersSent := false; finish_listeners := []; res_req := req |}.

(** What becomes of the response once it is written: it reaches the client,
    or the client has gone and the socket is closed. *)
Inductive Fate := Finishes | ClientGone.

Record World := {
  w_clock : N → Z;              (* successive readings of the wall clock, ms *)
  w_ccur : N;
  w_random : N → Q;             (* successive results of Math.random() *)
  w_rcur : N;
  w_throws : N → option Error;  (* exceptions raised by the runtime *)
  w_tcur : N;
  w_memory : MemoryUsage;
  w_uptime : Q;
  w_active : option nat;        (* the ambient active span *)
  w_next_span : nat;
  w_res : Response;
  w_log : list Event            (* newest first *)
}.

(** Field updates. *)
Definition with_ccur (c : N) (w : World) : World :=
  {| w_clock := w_clock w; w_ccur := c; w_random := w_random w; w_rcur := w_rcur w;
     w_throws := w_throws w; w_tcur := w_tcur w; w_memory := w_memory w;
     w_uptime := w_uptime w; w_active := w_active w; w_next_span := w_next_span w;
     w_res := w_res w; w_log := w_log w |}.

Definition with_rcur (c : N) (w : World) : World :=
  {| w_clock := w_clock w; w_ccur := w_ccur w; w_random := w_random w; w_rcur := c;
     w_throws := w_throws w; w_tcur := w_tcur w; w_memory := w_memory w;
     w_uptime := w_uptime w; w_active := w_active w; w_next_span := w_next_span w;
     w_res := w_res w; w_log := w_log w |}.

Definition with_tcur (c : N) (w : World) : World :=
  {| w_clock := w_clock w; w_ccur := w_ccur w; w_random := w_random w; w_rcur := w_rcur w;
     w_throws := w_throws w; w_tcur := c; w_memory := w_memory w;
     w_uptime := w_uptime w; w_active := w_active w; w_next_span := w_next_span w;
     w_res := w_res w; w_log := w_log w |}.

Definition with_next_span (n : nat) (w : World) : World :=
  {| w_clock := w_clock w; w_ccur := w_ccur w; w_random := w_random w; w_rcur := w_rcur w;
     w_throws := w_throws w; w_tcur := w_tcur w; w_memory := w_memory w;
     w_uptime := w_uptime w; w_active := w_active w; w_next_span := n;
     w_res := w_res w; w_log := w_log w |}.

Definition with_res (r : Response) (w : World) : World :=
  {| w_clock := w_clock w; w_ccur := w_ccur w; w_random := w_random w; w_rcur := w_rcur w;
     w_throws := w_throws w; w_tcur := w_tcur w; w_memory := w_memory w;
     w_uptime := w_uptime w; w_active := w_active w; w_next_span := w_next_span w;
     w_res := r; w_log := w_log w |}.

Definition with_log (l : list Event) (w : World) : World :=
  {| w_clock := w_clock w; w_ccur := w_ccur w; w_random := w_random w; w_rcur := w_rcur w;
     w_throws := w_throws w; w_tcur := w_tcur w; w_memory := w_memory w;
     w_uptime := w_uptime w; w_active := w_active w; w_next_span := w_next_span w;
     w_res := w_res w; w_log := l |}.

(** ** The monad: state plus exceptions *)

Inductive Outcome (A : Type) :=
| Ok (a : A)
| Throw (e : Error).
Arguments Ok {A} a.
Arguments Throw {A} e.

Definition M (A : Type) : Type := World → Outcome A * World.

Global Instance M_ret : MRet M := λ A a w, (Ok a, w).
Global Instance M_bind : MBind M := λ A B f m w,
  match m w with
  | (Ok a, w') => f a w'
  | (Throw e, w') => (Throw e, w')
  end.

(** [try { body } catch (error) { handler } finally { final }] *)
Definition try_catch_finally {A} (body : M A) (handler : Error → M A) (final : M unit) : M A :=
  λ w,
    let '(r, w1) := match body w with
                    | (Ok a, w1) => (Ok a, w1)
                    | (Throw e, w1) => handler e w1
                    end in
    match final w1 with
    | (Ok _, w2) => (r, w2)
    | (Throw e, w2) => (Throw e, w2)
    end.

(** ** Runtime primitives *)

Definition emit (e : Event) : M unit := λ w, (Ok (), with_log (e :: w_log w) w).

(** [Date.now()], also the reading behind [new Date()]. *)
Definition date_now : M Z := λ w, (Ok (w_clock w (w_ccur w)), with_ccur (N.succ (w_ccur w)) w).

(** [Math.random()] *)
Definition draw (w : World) : Q * World := (w_random w (w_rcur w), with_rcur (N.succ (w_rcur w)) w).
Definition math_random : M Q := λ w, let '(r, w') := draw w in (Ok r, w').

(** A point of a handler body where the runtime may raise an exception. *)
Definition may_throw : M unit := λ w,
  let w' := with_tcur (N.succ (w_tcur w)) w in
  match w_throws w (w_tcur w) with
  | Some e => (Throw e, w')
  | None => (Ok (), w')
  end.

Definition process_memoryUsage : M MemoryUsage := λ w, (Ok (w_memory w), w).
Definition process_uptime : M Q := λ w, (Ok (w_uptime w), w).

(** [Math.floor], [Math.round] *)
Definition math_floor (q : Q) : Z := Qfloor q.
Definition math_round (q : Q) : Z := Qfloor (q + (1 # 2)).

(** *** Binary64 arithmetic *)

(** The exponent of the last place of the doubles around [x >= 0]: 52 below
    the binary exponent of [x], and -1074 in the subnormal range. *)
Definition ulp_exp (x : Q) : Z :=
  Z.max (Z.log2 (Qfloor (x * 2 ^ 1126)) - 1178) (-1074).

(** The nearest integer, ties to the even one. *)
Definition round_half_even (y : Q) : Z :=
  let f := Qfloor y in
  match (y - inject_Z f ?= 1 # 2)%Q with
  | Lt => f
  | Gt => f + 1
  | Eq => if Z.even f then f else f + 1
  end%Z.

Definition round64_pos (x : Q) : Q :=
  (inject_Z (round_half_even (x * 2 ^ (- ulp_exp x))) * 2 ^ ulp_exp x)%Q.

(** The double nearest to [x]. *)
Definition round64 (x : Q) : Q :=
  if Qle_bool 0 x then round64_pos x else (- round64_pos (- x))%Q.

(** [x * y] and [x + y] on doubles *)
Definition js_mul (x y : Q) : Q := round64 (x * y).
Definition js_add (x y : Q) : Q := round64 (x + y).

(** [x < y] on numbers *)
Definition js_lt (x y : Q) : bool := negb (Qle_bool y x).

(** [setTimeout(k, ms)], and [await] of a promise resolved by a timer: the
    continuation runs once the timer of [ms] milliseconds has fired.  The
    event records the delay asked for; how late the timer fires is not
    modelled. *)
Definition after_timeout (ms : Z) : M unit := emit (ETimeout ms).

(** *** Tracing API *)

Definition tracer_startSpan (name : string) : M SpanId := λ w,
  let s := AppSpan (w_next_span w) in
  (Ok s, with_log (EStartSpan s name :: w_log w) (with_next_span (S (w_next_span w)) w)).

Definition trace_getActiveSpan : M (option SpanId) := λ w, (Ok (AutoSpan <$> w_active w), w).

Definition span_setAttributes (s : SpanId) (a : Attrs) : M unit := emit (ESetAttributes s a).
Definition span_addEvent (s : SpanId) (name : string) (a : Attrs) : M unit := emit (EAddEvent s name a).
Definition span_recordException (s : SpanId) (e : Error) : M unit := emit (ERecordException s e).
Definition span_setStatus (s : SpanId) (code : Z) (msg : option string) : M unit :=
  emit (ESetStatus s code msg).
Definition span_end (s : SpanId) : M unit := emit (EEndSpan s).

(** [span?.method(...)] *)
Definition opt_call (o : option SpanId) (f : SpanId → M unit) : M unit :=
  match o with
  | Some s => f s
  | None => mret ()
  end.

(** *** Metrics API *)

Definition meter_create (k : InstrumentKind) (name : string) : M Instrument :=
  emit (ECreate k name);; mret {| ins_kind := k; ins_name := name |}.

Definition instrument_add (i : Instrument) (delta : Z) (tags : Tags) : M unit := emit (EAdd i delta tags).
Definition instrument_record (i : Instrument) (v : Q) (tags : Tags) : M unit := emit (ERecord i v tags).

Definition console_error (label : string) (arg : LogArg) : M unit := emit (EConsoleError label arg).

(** *** Request and response *)

Definition lower_ascii (c : Ascii.ascii) : Ascii.ascii :=
  let n := Ascii.N_of_ascii c in
  if ((65 <=? n) && (n <=? 90))%N then Ascii.ascii_of_N (n + 32) else c.

Fixpoint lower (s : string) : string :=
  match s with
  | EmptyString => EmptyString
  | String c s' => String (lower_ascii c) (lower s')
  end.

(** [req.get(name)]: case-insensitive header lookup. *)
Definition req_get (req : Request) (name : string) : option string :=
  req_headers req !! lower name.

(** [s || d] where [s] is a string or undefined: the empty string is falsy. *)
Definition or_else {A} (inj : string → A) (o : option string) (d : A) : A :=
  match o with
  | Some EmptyString | None => d
  | Some s => inj s
  end.

(** [req.method] is GET or HEAD. *)
Definition is_get (req : Request) : bool :=
  bool_decide (req_method req = "GET") || bool_decide (req_method req = "HEAD").

(** The statuses Express validates for freshness: 2xx and 304. *)
Definition cacheable_status (status : Z) : bool :=
  ((200 <=? status) && (status <? 300) || (status =? 304))%Z.

(** The statuses Express sends without a body. *)
Definition is_bodiless (status : Z) : bool := ((status =? 204) || (status =? 304))%Z.

(** ** The application *)

(** Module-level instruments of [index.js]. *)
Definition httpRequestsTotal : Instrument :=
  {| ins_kind := Counter; ins_name := "http_requests_total" |}.
Definition httpRequestDuration : Instrument :=
  {| ins_kind := Histogram; ins_name := "http_request_duration_seconds" |}.
Definition activeConnections : Instrument :=
  {| ins_kind := UpDownCounter; ins_name := "active_connections" |}.

(** Module initialisation: the three [meter.create...] calls. *)
Definition startup : M unit :=
  _ ← meter_create Counter "http_requests_total";
  _ ← meter_create Histogram "http_request_duration_seconds";
  _ ← meter_create UpDownCounter "active_connections";
  mret ().

Definition jint (z : Z) : json := JNum (inject_Z z).
Definition aint (z : Z) : AttrValue := ANum (inject_Z z).

Section App.

(** Library functions whose results the service only passes along. *)
Variable toISOString : Z → string.         (* Date.prototype.toISOString *)
Variable content_length : json → string.   (* the header Express computes for a body *)
Variable base36_id : Q → string.           (* x.toString(36).substr(2, 9) *)
Variable math_sqrt : Z → Q.                (* Math.sqrt *)
(* the comparison of the conditional headers of a request (If-None-Match,
   If-Modified-Since, Cache-Control) with the ETag Express derives from the
   body, as made by [fresh] *)
Variable is_fresh : gmap string string → json → bool.

(** [new Date().toISOString()] *)
Definition iso_now : M string := t ← date_now; mret (toISOString t).

(** [res.status(code)] *)
Definition res_status (code : Z) : M unit := λ w,
  let r := w_res w in
  (Ok (), with_res {| statusCode := code;
                      content_length_header := content_length_header r;
                      res_body := res_body r;
                      headersSent := headersSent r;
                      finish_listeners := finish_listeners r;
                      res_req := res_req r |} w).

(** [req.fresh], read while the response of the given status and body is
    being sent. *)
Definition req_fresh (req : Request) (status : Z) (body : json) : bool :=
  is_get req && cacheable_status status && is_fresh (req_headers req) body.

(** [res.json(body)]: writes the response; a second write raises.  The event
    logged is the call, with the status set by then.  Express then answers a
    fresh request with 304, and sends a 204 or a 304 without body and
    without Content-Length. *)
Definition res_json (body : json) : M unit := λ w,
  let r := w_res w in
  if headersSent r then
    (Throw (new_Error "Cannot set headers after they are sent to the client"), w)
  else
    let status := if req_fresh (res_req r) (statusCode r) body then 304%Z else statusCode r in
    (Ok (), with_log (ESend (statusCode r) body :: w_log w)
              (with_res {| statusCode := status;
                           content_length_header :=
                             if is_bodiless status then None else Some (content_length body);
                           res_body := if is_bodiless status then None else Some body;
                           headersSent := true;
                           finish_listeners := finish_listeners r;
                           res_req := res_req r |} w)).

(** [res.on('finish', hook)] *)
Definition res_on_finish (h : FinishHook) : M unit := λ w,
  let r := w_res w in
  (Ok (), with_res {| statusCode := statusCode r;
                      content_length_header := content_length_header r;
                      res_body := res_body r;
                      headersSent := headersSent r;
                      finish_listeners := finish_listeners r ++ [h];
                      res_req := res_req r |} w).

Definition get_res : M Response := λ w, (Ok (w_res w), w).

(** *** Request-tracking middleware (lines 23-61) *)

Definition middleware (req : Request) : M unit :=
  startTime ← date_now;
  span ← tracer_startSpan (req_method req +:+ " " +:+ req_path req);
  span_setAttributes span
    [("http.method", AStr (req_method req));
     ("http.url", AStr (req_url req));
     ("http.user_agent", or_else AStr (req_get req "User-Agent") (AStr "unknown"))];;
  instrument_add httpRequestsTotal 1
    [("method", req_method req); ("endpoint", req_path req)];;
  instrument_add activeConnections 1 [];;
  res_on_finish {| fh_startTime := startTime; fh_span := span; fh_req := req |}.

(** The body of the ['finish'] listener (lines 42-58). *)
Definition on_finish (h : FinishHook) : M unit :=
  now ← date_now;
  let duration := (inject_Z (now - fh_startTime h) / 1000)%Q in
  res ← get_res;
  span_setAttributes (fh_span h)
    [("http.status_code", aint (statusCode res));
     ("http.response_size", or_else AStr (content_length_header res) (aint 0))];;
  instrument_record httpRequestDuration duration
    [("method", req_method (fh_req h));
     ("endpoint", req_path (fh_req h));
     ("status_code", pretty (statusCode res))];;
  instrument_add activeConnections (-1) [];;
  span_end (fh_span h).

(** *** Route handlers *)

Definition memory_json (m : MemoryUsage) : json :=
  JObj [("rss", jint (rss m)); ("heapTotal", jint (heapTotal m));
        ("heapUsed", jint (heapUsed m)); ("external", jint (external m));
        ("arrayBuffers", jint (arrayBuffers m))].

(** [GET /health] (lines 64-71) *)
Definition health_handler : M unit :=
  ts ← iso_now;
  up ← process_uptime;
  mem ← process_memoryUsage;
  res_json (JObj [("status", JStr "healthy"); ("timestamp", JStr ts);
                  ("uptime", JNum up); ("memory", memory_json mem)]).

(** [GET /hello] (lines 74-89) *)
Definition hello_handler : M unit :=
  r ← math_random;
  let delay := math_floor (js_mul r 500) in
  span ← trace_getActiveSpan;
  opt_call span (λ s, span_addEvent s "Processing hello request" [("delay", aint delay)]);;
  after_timeout delay;;
  r' ← math_random;
  res_json (JObj [("message", JStr "Hello, Observability from Node.js!");
                  ("delay", jint delay);
                  ("requestId", JStr (base36_id r'))]).

(** [Math.random() < 0.3], as a function of the draw.  The threshold is kept
    as the rational 3/10: the double nearest to it is smaller by 2^-54 / 5,
    and no multiple of 2^-53 lies between the two. *)
Definition should_fail (r : Q) : bool := js_lt r (3 # 10).

(** [GET /flaky] (lines 92-111) *)
Definition flaky_handler : M unit :=
  span ← trace_getActiveSpan;
  r ← math_random;
  let shouldFail := should_fail r in
  if shouldFail then
    let error := new_Error "Simulated random error" in
    opt_call span (λ s, span_recordException s error);;
    opt_call span (λ s, span_setStatus s 2 (Some "Random error occurred"));;
    console_error "Flaky endpoint error:" (LStr (err_message error));;
    res_status 500;;
    res_json (JObj [("error", JStr "Something went wrong!")])
  else
    opt_call span (λ s, span_addEvent s "Flaky endpoint succeeded" []);;
    ts ← iso_now;
    res_json (JObj [("message", JStr "Success!"); ("timestamp", JStr ts);
                    ("success", JBool true)]).

(** The loop of [GET /cpu-intensive] (lines 122-124):
    [for (let i = 0; i < n; i++) result += Math.sqrt(i) * Math.random()],
    entered with the given [i] and [result]; returns both at exit. *)
Equations? cpu_loop (n i : Z) (result : Q) (w : World) : Z * Q * World
  by wf (Z.to_nat (n - i)) lt :=
  cpu_loop n i result w with Z_lt_dec i n => {
    | left _ => cpu_loop n (i + 1) (js_add result (js_mul (math_sqrt i) (draw w).1)) (draw w).2;
    | right _ => (i, result, w) }.
Proof. lia. Qed.

(** The accumulator after [m] more rounds of the loop body, started at index
    [i] with accumulator [acc] and the random cursor at [c]. *)
Definition cpu_acc (rnd : N → Q) (i : Z) (acc : Q) (c m : N) : Q :=
  N.recursion acc (λ j a, js_add a (js_mul (math_sqrt (i + Z.of_N j)) (rnd (c + j)%N))) m.

(** The sum of [Math.sqrt(i) * Math.random()] over [i = 0 .. m-1], as the
    loop accumulates it from 0. *)
Definition spec_cpu_sum (rnd : N → Q) (c m : N) : Q := cpu_acc rnd 0 0 c m.

(** [const iterations = 1000000] *)
Definition iterations : Z := 1000000.

(** The loop as it is entered: [i = 0], [result = 0]. *)
Definition cpu_work : M Q := λ w,
  let st := cpu_loop iterations 0 0%Q w in (Ok st.1.2, st.2).

(** [GET /cpu-intensive] (lines 114-134) *)
Definition cpu_intensive_handler : M unit :=
  span ← trace_getActiveSpan;
  opt_call span (λ s, span_addEvent s "Starting CPU intensive operation" []);;
  result ← cpu_work;
  opt_call span (λ s, span_addEvent s "CPU intensive operation completed"
                        [("iterations", aint iterations); ("result", ANum result)]);;
  ts ← iso_now;
  res_json (JObj [("message", JStr "CPU intensive operation completed");
                  ("iterations", jint iterations);
                  ("result", jint (math_round result));
                  ("timestamp", JStr ts)]).

(** [`${Math.round(bytes / 1024 / 1024)} MB`] *)
Definition megabytes (bytes : Z) : string :=
  pretty (math_round (inject_Z bytes / 1024 / 1024)) +:+ " MB".

(** [GET /memory] (lines 137-156) *)
Definition memory_handler : M unit :=
  usage ← process_memoryUsage;
  span ← trace_getActiveSpan;
  opt_call span (λ s, span_setAttributes s
    [("memory.heap_used", aint (heapUsed usage));
     ("memory.heap_total", aint (heapTotal usage));
     ("memory.external", aint (external usage))]);;
  ts ← iso_now;
  res_json (JObj [("memory", JObj [("heapUsed", JStr (megabytes (heapUsed usage)));
                                   ("heapTotal", JStr (megabytes (heapTotal usage)));
                                   ("external", JStr (megabytes (external usage)));
                                   ("rss", JStr (megabytes (rss usage)))]);
                  ("timestamp", JStr ts)]).

Definition db_rows : json :=
  JArr [JObj [("id", jint 1); ("name", JStr "John Doe"); ("email", JStr "john@example.com")];
        JObj [("id", jint 2); ("name", JStr "Jane Smith"); ("email", JStr "jane@example.com")]].

(** [GET /db-query] (lines 159-192).  The runtime may raise inside the
    [try] block, on entry and when the awaited delay resumes. *)
Definition db_query_handler : M unit :=
  span ← tracer_startSpan "database_query";
  try_catch_finally
    (may_throw;;
     span_setAttributes span
       [("db.system", AStr "postgresql"); ("db.operation", AStr "SELECT");
        ("db.table", AStr "users")];;
     r ← math_random;
     let queryTime := (math_floor (js_mul r 200) + 50)%Z in
     after_timeout queryTime;;
     may_throw;;
     span_addEvent span "Query executed successfully" [("duration", aint queryTime)];;
     span_setStatus span 1 None;;
     ts ← iso_now;
     res_json (JObj [("message", JStr "Database query completed");
                     ("queryTime", JStr (pretty queryTime +:+ "ms"));
                     ("data", db_rows);
                     ("timestamp", JStr ts)]))
    (λ error,
       span_recordException span error;;
       span_setStatus span 2 (Some (err_message error));;
       res_status 500;;
       res_json (JObj [("error", JStr "Database error")]))
    (span_end span).

(** [GET /metrics-demo] (lines 195-211) *)
Definition metrics_demo_handler : M unit :=
  customMetric ← meter_create Gauge "demo_custom_value";
  r1 ← math_random;
  instrument_record customMetric (js_mul r1 100) [];;
  temperatureGauge ← meter_create Gauge "room_temperature_celsius";
  r2 ← math_random;
  instrument_record temperatureGauge (js_add 20 (js_mul r2 10)) [];;
  ts ← iso_now;
  r3 ← math_random;
  r4 ← math_random;
  res_json (JObj [("message", JStr "Custom metrics generated");
                  ("timestamp", JStr ts);
                  ("values", JObj [("customValue", JNum (js_mul r3 100));
                                   ("temperature", JNum (js_add 20 (js_mul r4 10)))])]).

(** The 404 handler (lines 214-220) *)
Definition not_found_handler (req : Request) : M unit :=
  res_status 404;;
  ts ← iso_now;
  res_json (JObj [("error", JStr "Not Found"); ("path", JStr (req_path req));
                  ("timestamp", JStr ts)]).

(** The error handler (lines 223-233) *)
Definition error_handler (err : Error) : M unit :=
  span ← trace_getActiveSpan;
  opt_call span (λ s, span_recordException s err);;
  console_error "Unhandled error:" (LErr err);;
  res_status 500;;
  ts ← iso_now;
  res_json (JObj [("error", JStr "Internal Server Error"); ("timestamp", JStr ts)]).

(** *** Dispatch *)

Inductive Route :=
| RHealth | RHello | RFlaky | RCpuIntensive | RMemory | RDbQuery | RMetricsDemo
| RNotFound.

(** Express matches a route path ignoring case and one trailing slash, and
    serves HEAD requests from the GET routes. *)
Definition path_is (route path : string) : bool :=
  bool_decide (lower path = route) || bool_decide (lower path = route +:+ "/").

(** The routes, tried in registration order; the 404 handler takes the rest. *)
Definition route_of (req : Request) : Route :=
  if negb (is_get req) then RNotFound
  else if path_is "/health" (req_path req) then RHealth
  else if path_is "/hello" (req_path req) then RHello
  else if path_is "/flaky" (req_path req) then RFlaky
  else if path_is "/cpu-intensive" (req_path req) then RCpuIntensive
  else if path_is "/memory" (req_path req) then RMemory
  else if path_is "/db-query" (req_path req) then RDbQuery
  else if path_is "/metrics-demo" (req_path req) then RMetricsDemo
  else RNotFound.

Definition handler_of (req : Request) (r : Route) : M unit :=
  match r with
  | RHealth => health_handler
  | RHello => hello_handler
  | RFlaky => flaky_handler
  | RCpuIntensive => cpu_intensive_handler
  | RMemory => memory_handler
  | RDbQuery => db_query_handler
  | RMetricsDemo => metrics_demo_handler
  | RNotFound => not_found_handler req
  end.

(** Only [/db-query] is an [async] function. *)
Definition is_async (r : Route) : bool :=
  match r with RDbQuery => true | _ => false end.

(** Express calls a synchronous handler inside a try block: whatever the
    handler raises, at whatever point, is passed to the error handler, which
    starts from the world the handler has left. *)
Definition run_sync (h : M unit) : M unit := λ w,
  match h w with
  | (Ok _, w') => (Ok (), w')
  | (Throw err, w') => error_handler err w'
  end.

(** Express runs the matched handler.  The handlers of this service raise
    nothing of their own before they answer; the runtime may raise as a
    synchronous handler is entered.  The rejection of an [async] handler is
    not observed (the [/db-query] handler guards its own body instead). *)
Definition run_route (req : Request) : M unit := λ w,
  let r := route_of req in
  if is_async r then
    match handler_of req r w with
    | (_, w') => (Ok (), w')
    end
  else run_sync (may_throw;; handler_of req r) w.

Fixpoint run_listeners (hs : list FinishHook) : M unit :=
  match hs with
  | [] => mret ()
  | h :: hs' => on_finish h;; run_listeners hs'
  end.

(** The ['finish'] event: emitted once the response has been written and
    handed to the client. *)
Definition emit_finish : M unit := λ w,
  if headersSent (w_res w) then run_listeners (finish_listeners (w_res w)) w
  else (Ok (), w).

(** After the handler: Node emits ['finish'] for a response that reaches the
    client, and never for one whose client has gone (the service registers
    no ['close'] listener). *)
Definition settle (fate : Fate) : M unit :=
  match fate with
  | Finishes => emit_finish
  | ClientGone => mret ()
  end.

(** One request, from entry to the end of its ['finish'] listeners. *)
Definition handle_request_with (fate : Fate) (req : Request) (w : World) : World :=
  ((middleware req;; run_route req;; settle fate) (with_res (new_response req) w)).2.

(** A request whose response reaches the client. *)
Definition handle_request (req : Request) (w : World) : World :=
  handle_request_with Finishes req w.

(** The process: module initialisation, then the requests in turn. *)
Definition boot (w : World) : World := (startup w).2.

Definition serve (reqs : list Request) (w : World) : World :=
  foldl (λ w req, handle_request req w) w reqs.

(** The same, each request with the fate of its response. *)
Definition serve_with (reqs : list (Request * Fate)) (w : World) : World :=
  foldl (λ w rf, handle_request_with rf.2 rf.1 w) w reqs.

(** What a computation appends to the log (newest first): no computation
    reads the log, so it is run on an empty one. *)
Definition new_events {A} (m : M A) (w : World) : list Event :=
  w_log (m (with_log [] w)).2.

Definition request_events (req : Request) (w : World) : list Event :=
  w_log (handle_request req (with_log [] w)).

Definition request_events_with (fate : Fate) (req : Request) (w : World) : list Event :=
  w_log (handle_request_with fate req (with_log [] w)).

(** The same, oldest event first. *)
Definition trace_of {A} (m : M A) (w : World) : list Event := reverse (new_events m w).

Definition request_trace (req : Request) (w : World) : list Event :=
  reverse (request_events req w).

End App.

(** ** Views of the log *)

Fixpoint count_events (p : Event → bool) (l : list Event) : nat :=
  match l with
  | [] => 0
  | e :: l' => (if p e then 1 else 0) + count_events p l'
  end.

Definition is_start (s : SpanId) (e : Event) : bool :=
  match e with EStartSpan s' _ => bool_decide (s' = s) | _ => false end.

Definition is_end (s : SpanId) (e : Event) : bool :=
  match e with EEndSpan s' => bool_decide (s' = s) | _ => false end.

Definition is_create (e : Event) : bool :=
  match e with ECreate _ _ => true | _ => false end.

Definition is_create_of (k : InstrumentKind) (name : string) (e : Event) : bool :=
  match e with
  | ECreate k' name' => bool_decide (k' = k) && bool_decide (name' = name)
  | _ => false
  end.

Definition is_add (i : Instrument) (d : Z) (e : Event) : bool :=
  match e with
  | EAdd i' d' _ => bool_decide (ins_name i' = ins_name i) && bool_decide (d' = d)
  | _ => false
  end.

Definition is_send (e : Event) : bool :=
  match e with ESend _ _ => true | _ => false end.

(** The attributes a span carries: the newest write of a key wins. *)
Fixpoint span_attrs (s : SpanId) (log : list Event) : gmap string AttrValue :=
  match log with
  | [] => ∅
  | ESetAttributes s' a :: older =>
      if decide (s' = s) then list_to_map a ∪ span_attrs s older else span_attrs s older
  | _ :: older => span_attrs s older
  end.

(** The exceptions recorded on a span, newest first. *)
Fixpoint span_exceptions (s : SpanId) (log : list Event) : list Error :=
  match log with
  | [] => []
  | ERecordException s' e :: older =>
      if decide (s' = s) then e :: span_exceptions s older else span_exceptions s older
  | _ :: older => span_exceptions s older
  end.

(** The value of an additive instrument: the sum of its deltas. *)
Fixpoint instrument_value (i : Instrument) (log : list Event) : Z :=
  match log with
  | [] => 0
  | EAdd i' d _ :: older =>
      if decide (ins_name i' = ins_name i) then d + instrument_value i older
      else instrument_value i older
  | _ :: older => instrument_value i older
  end.

(** The values recorded into a histogram or gauge, newest first. *)
Fixpoint recorded_values (i : Instrument) (log : list Event) : list Q :=
  match log with
  | [] => []
  | ERecord i' v _ :: older =>
      if decide (ins_name i' = ins_name i) then v :: recorded_values i older
      else recorded_values i older
  | _ :: older => recorded_values i older
  end.

(** The life of a span along a trace (oldest event first): it is started at
    most once, and ended once, after it was started. *)
Inductive SpanState := Unstarted | Open | Ended | Broken.

Definition span_step (s : SpanId) (st : SpanState) (e : Event) : SpanState :=
  match e with
  | EStartSpan s' _ =>
      if decide (s' = s) then match st with Unstarted => Open | _ => Broken end else st
  | EEndSpan s' =>
      if decide (s' = s) then match st with Open => Ended | _ => Broken end else st
  | _ => st
  end.

Definition span_state (s : SpanId) (trace : list Event) : SpanState :=
  foldl (span_step s) Unstarted trace.

(** A response as Express hands it to a handler: status 200, nothing written. *)
Definition unsent (r : Response) : Prop :=
  statusCode r = 200%Z ∧ headersSent r = false.

(** Results of [Math.random()] lie in [0, 1). *)
Definition unit_interval (r : Q) : Prop := (0 <= r)%Q ∧ (r < 1)%Q.

(** The finite doubles: an integer below [2^53] times a power of two. *)
Definition binary64 (x : Q) : Prop :=
  ∃ m e : Z, (Z.abs m < 2 ^ 53)%Z ∧ (-1074 ≤ e ≤ 971)%Z ∧ (x == inject_Z m * 2 ^ e)%Q.

(** What [Math.random()] returns: a double of [0, 1). *)
Definition random_value (r : Q) : Prop := unit_interval r ∧ binary64 r.

(** ** Specification-side definitions *)

(** "Rounded to 3 decimals of precision". *)
Definition round3 (x : Q) : Q := (inject_Z (math_round (x * 1000)) / 1000)%Q.

(** "Elapsed seconds = (now - start)/1000 rounded to 3 decimals". *)
Definition spec_elapsed_seconds (start now : Z) : Q :=
  round3 (inject_Z (now - start) / 1000).

(** The points [k/n], [k < n], of an even grid on [0, 1). *)
Definition grid (n : nat) : list Q := (λ k : nat, inject_Z (Z.of_nat k) / inject_Z (Z.of_nat n))%Q <$> seq 0 n.

(** How many draws of an even grid make [/flaky] fail. *)
Definition failing_draws (n : nat) : nat :=
  length (List.filter should_fail (grid n)).

(** The attributes the /memory handler writes (lines 141-145). *)
Definition memory_attrs (usage : MemoryUsage) : Attrs :=
  [("memory.heap_used", aint (heapUsed usage));
   ("memory.heap_total", aint (heapTotal usage));
   ("memory.external", aint (external usage))].

(** The instruments bound at module level. *)
Definition module_instruments : list Instrument :=
  [httpRequestsTotal; httpRequestDuration; activeConnections].

Global Instance Instrument_eq_dec : EqDecision Instrument.
Proof. solve_decision. Defined.

(** Along a trace (oldest event first), every write goes to an instrument
    that exists when the write is made: one of [known], or one created by an
    earlier event of the trace. *)
Fixpoint writes_to_existing (known : list Instrument) (trace : list Event) : bool :=
  match trace with
  | [] => true
  | ECreate k name :: rest =>
      writes_to_existing ({| ins_kind := k; ins_name := name |} :: known) rest
  | EAdd i _ _ :: rest | ERecord i _ _ :: rest =>
      bool_decide (i ∈ known) && writes_to_existing known rest
  | _ :: rest => writes_to_existing known rest
  end.

(** ** Further views of the log *)

(** The statuses of the responses written, newest first. *)
Fixpoint sent_statuses (log : list Event) : list Z :=
  match log with
  | [] => []
  | ESend status _ :: older => status :: sent_statuses older
  | _ :: older => sent_statuses older
  end.

(** The calls of [res.json] that went through, newest first: the status at
    the call and the body passed. *)
Fixpoint sends (log : list Event) : list (Z * json) :=
  match log with
  | [] => []
  | ESend status body :: older => (status, body) :: sends older
  | _ :: older => sends older
  end.

(** How many of the responses reach the client, and how many do not. *)
Definition finished (reqs : list (Request * Fate)) : nat :=
  length (List.filter (λ rf, match rf.2 with Finishes => true | ClientGone => false end) reqs).

Definition abandoned (reqs : list (Request * Fate)) : nat :=
  length (List.filter (λ rf, match rf.2 with Finishes => false | ClientGone => true end) reqs).

(** The life of the process so far, oldest event first. *)
Definition history (w : World) : list Event := reverse (w_log w).

(** An event that starts or ends the span. *)
Definition mentions (s : SpanId) (e : Event) : bool := is_start s e || is_end s e.

(** Between requests no span is open, and the spans the application has
    started are numbered below [w_next_span]. *)
Definition spans_settled (w : World) : Prop :=
  (∀ s, span_state s (history w) = Unstarted ∨ span_state s (history w) = Ended)
  ∧ ∀ n, w_next_span w ≤ n → count_events (mentions (AppSpan n)) (w_log w) = 0.

(** The tags of the values recorded into a histogram or gauge, newest first. *)
Fixpoint recorded_tags (i : Instrument) (log : list Event) : list Tags :=
  match log with
  | [] => []
  | ERecord i' _ tags :: older =>
      if decide (ins_name i' = ins_name i) then tags :: recorded_tags i older
      else recorded_tags i older
  | _ :: older => recorded_tags i older
  end.

(** The exception the try block of /db-query meets first, if any. *)
Definition db_query_failure (w : World) : option Error :=
  match w_throws w (w_tcur w) with
  | Some e => Some e
  | None => w_throws w (N.succ (w_tcur w))
  end.

(** ** Telemetry bootstrap ([src/app/tracing.js]) *)

Module Tracing.

Inductive Signal := Traces | Metrics | Logs.

(** An OTLP exporter: what it carries and where it sends it. *)
Record Exporter := { exp_signal : Signal; exp_url : string }.

(** The options passed to [new NodeSDK]. *)
Record SdkConfig := {
  traceExporter : Exporter;
  metricReader : Exporter;        (* the exporter of the periodic reader *)
  autoInstrumentations : bool
}.

Inductive Effect :=
| NewExporter (e : Exporter)
| NewSdk (cfg : SdkConfig)
| SdkStart
| SdkShutdown
| ConsoleLog (msg : string)
| ConsoleError (label : option string) (e : Error)
| OnSignal (name : string)
| ProcessExit (code : Z).

(** The state of a promise when the event loop gets to it. *)
Inductive Settled (A : Type) :=
| Fulfilled (a : A)
| Rejected (e : Error)
| Pending.
Arguments Fulfilled {A} a.
Arguments Rejected {A} e.
Arguments Pending {A}.

(** Promise-returning code: the effects made so far (newest first) are
    threaded through. *)
Definition P (A : Type) : Type := list Effect → Settled A * list Effect.

Definition effect (e : Effect) : P unit := λ l, (Fulfilled (), e :: l).

(** [p.then(f)] *)
Definition then_ {A B} (p : P A) (f : A → P B) : P B := λ l,
  match p l with
  | (Fulfilled a, l') => f a l'
  | (Rejected e, l') => (Rejected e, l')
  | (Pending, l') => (Pending, l')
  end.

(** [p.catch(g)] *)
Definition catch_ {A} (p : P A) (g : Error → P A) : P A := λ l,
  match p l with
  | (Rejected e, l') => g e l'
  | settled => settled
  end.

(** [p.finally(h)] *)
Definition finally_ {A} (p : P A) (h : P unit) : P A := λ l,
  match p l with
  | (Pending, l') => (Pending, l')
  | (r, l') =>
      match h l' with
      | (Fulfilled _, l'') => (r, l'')
      | (Rejected e, l'') => (Rejected e, l'')
      | (Pending, l'') => (Pending, l'')
      end
  end.

(** What the SDK answers: how [sdk.start()] and [sdk.shutdown()] settle. *)
Record Sdk := { start_result : Settled unit; shutdown_result : Settled unit }.

Definition collector : string := "http://otel-collector:4317".

Definition sdk_config : SdkConfig :=
  {| traceExporter := {| exp_signal := Traces; exp_url := collector |};
     metricReader := {| exp_signal := Metrics; exp_url := collector |};
     autoInstrumentations := true |}.

(** Lines 10-18, the call of [sdk.start()] at line 20 and the registration of
    the SIGTERM listener at line 24: the synchronous part of the module. *)
Definition module_body : P unit :=
  then_ (effect (NewExporter {| exp_signal := Traces; exp_url := collector |})) (λ _,
  then_ (effect (NewExporter {| exp_signal := Metrics; exp_url := collector |})) (λ _,
  then_ (effect (NewExporter {| exp_signal := Logs; exp_url := collector |})) (λ _,
  then_ (effect (NewSdk sdk_config)) (λ _,
  then_ (effect SdkStart) (λ _,
  effect (OnSignal "SIGTERM")))))).

(** Lines 20-22, once the promise of [sdk.start()] has settled. *)
Definition start_settles (sdk : Sdk) : P unit :=
  catch_
    (then_ (λ l, (start_result sdk, l)) (λ _, effect (ConsoleLog "✅ OpenTelemetry SDK started")))
    (λ err, effect (ConsoleError (Some "Error starting OpenTelemetry SDK") err)).

(** Loading the module. *)
Definition load (sdk : Sdk) : P unit := λ l,
  match module_body l with
  | (_, l') => start_settles sdk l'
  end.

(** The SIGTERM listener (lines 24-29). *)
Definition on_sigterm (sdk : Sdk) : P unit :=
  finally_
    (catch_
       (then_ (λ l, (shutdown_result sdk, SdkShutdown :: l))
              (λ _, effect (ConsoleLog "SDK shut down")))
       (λ err, effect (ConsoleError None err)))
    (effect (ProcessExit 0)).

(** The effects of a computation, oldest first. *)
Definition effects_of {A} (p : P A) : list Effect := reverse (p []).2.

Definition exits (l : list Effect) : list Z :=
  omap (λ e, match e with ProcessExit c => Some c | _ => None end) l.

End Tracing.

(** ** Sample inputs *)

Definition sample_iso (t : Z) : string := pretty t.
Definition sample_content_length (_ : json) : string := "42".
Definition sample_id (_ : Q) : string := "k3j9x0q1z".
Definition sample_sqrt (z : Z) : Q := inject_Z (Z.sqrt z).

(** A request is fresh when it asks for any cached copy to be revalidated
    ([If-None-Match: *]) and does not opt out of caches. *)
Definition sample_fresh (headers : gmap string string) (_ : json) : bool :=
  bool_decide (headers !! "if-none-match" = Some "*")
  && bool_decide (headers !! "cache-control" = None).

Definition get (path : string) : Request :=
  {| req_method := "GET"; req_path := path; req_url := path; req_headers := ∅ |}.

(** A GET request that names its client. *)
Definition get_as (path ua : string) : Request :=
  {| req_method := "GET"; req_path := path; req_url := path;
     req_headers := {["user-agent" := ua]} |}.

(** A conditional GET request. *)
Definition get_if_none_match (path etag : string) : Request :=
  {| req_method := "GET"; req_path := path; req_url := path;
     req_headers := {["if-none-match" := etag]} |}.

Definition sample_memory : MemoryUsage :=
  {| rss := 52428800; heapTotal := 20971520; heapUsed := 10485760;
     external := 2097152; arrayBuffers := 16384 |}.

(** A quiet process: the clock advances 7 ms per reading, every draw is
    [1/4], the runtime raises nothing, the SDK has made span 0 active. *)
Definition sample_world : World :=
  {| w_clock := λ k, (1700000000000 + 7 * Z.of_N k)%Z; w_ccur := 0;
     w_random := λ _, (1 # 4)%Q; w_rcur := 0;
     w_throws := λ _, None; w_tcur := 0;
     w_memory := sample_memory; w_uptime := (3 # 2)%Q;
     w_active := Some 0; w_next_span := 0;
     w_res := new_response (get "/"); w_log := [] |}.

(** The same process with a runtime that raises at every opportunity. *)
Definition failing_world : World :=
  {| w_clock := w_clock sample_world; w_ccur := 0;
     w_random := w_random sample_world; w_rcur := 0;
     w_throws := λ _, Some (mkError "boom" "Error: boom at index.js:1:1"); w_tcur := 0;
     w_memory := sample_memory; w_uptime := (3 # 2)%Q;
     w_active := Some 0; w_next_span := 0;
     w_res := new_response (get "/"); w_log := [] |}.


(** ** Symbolic execution *)

(** Runs the handlers' code on a world whose oracles are left symbolic;
    library functions and arithmetic stay folded. *)
Ltac exec :=
  cbv beta iota zeta delta
    [mbind M_bind mret M_ret try_catch_finally emit date_now draw math_random
     may_throw process_memoryUsage process_uptime after_timeout tracer_startSpan
     trace_getActiveSpan span_setAttributes span_addEvent span_recordException
     span_setStatus span_end opt_call meter_create instrument_add instrument_record
     console_error iso_now res_status res_json res_on_finish get_res middleware
     on_finish health_handler hello_handler flaky_handler cpu_intensive_handler
     memory_handler db_query_handler metrics_demo_handler not_found_handler
     error_handler handler_of is_async run_sync run_route run_listeners emit_finish
     settle handle_request_with handle_request boot startup new_events request_events
     request_events_with trace_of request_trace
     with_ccur with_rcur with_tcur with_next_span with_res with_log
     w_clock w_ccur w_random w_rcur w_throws w_tcur w_memory w_uptime w_active
     w_next_span w_res w_log new_response
     statusCode content_length_header res_body headersSent finish_listeners res_req
     is_bodiless Z.eqb Pos.eqb orb
     fh_startTime fh_span fh_req fmap option_fmap option_map
     fst snd app].

(** Evaluates the views of the log on an explicit list of events. *)
Ltac views :=
  cbv beta iota zeta delta
    [reverse rev_append span_state foldl span_step count_events is_start is_end
     is_send is_create is_create_of is_add last instrument_value recorded_values
     span_exceptions writes_to_existing module_instruments List.filter sends
     sent_statuses recorded_tags].

Ltac span_cases :=
  intros; repeat (case_decide || case_bool_decide);
  repeat first
    [ progress subst
    | match goal with
      | H : AppSpan _ = AppSpan _ |- _ => injection H as H
      | H : AutoSpan _ = AppSpan _ |- _ => discriminate H
      | H : AppSpan _ = AutoSpan _ |- _ => discriminate H
      end ];
  split_and?; try lia; try congruence; try done.

(** ** Binary64 rounding *)

Section Rounding.

Local Open Scope Q_scope.

Lemma pow2_pos (e : Z) : 0 < 2 ^ e.
Proof. by apply Qpower_0_lt. Qed.

Lemma pow2_cancel (e : Z) : 2 ^ (- e) * 2 ^ e == 1.
Proof.
  rewrite Qpower_opp. field. pose proof (pow2_pos e) as H. intros Hz. rewrite Hz in H. lra.
Qed.

Lemma pow2_le (a b : Z) : (a ≤ b)%Z → 2 ^ a <= 2 ^ b.
Proof. intros H. apply Qpower_le_compat_l; [done|lra]. Qed.

Lemma pow2_Z (n : Z) : (0 ≤ n)%Z → 2 ^ n == inject_Z (2 ^ n).
Proof. intros H. by rewrite Zpower_Qpower. Qed.

Lemma round_half_even_bounds y :
  y - (1 # 2) <= inject_Z (round_half_even y) ∧ inject_Z (round_half_even y) <= y + (1 # 2).
Proof.
  unfold round_half_even.
  pose proof (Qfloor_le y) as Hlo. pose proof (Qlt_floor y) as Hhi.
  rewrite inject_Z_plus in Hhi. change (inject_Z 1) with 1 in Hhi.
  destruct (Qcompare_spec (y - inject_Z (Qfloor y)) (1 # 2)) as [He|Hl|Hg].
  - destruct (Z.even (Qfloor y)); rewrite ?inject_Z_plus; change (inject_Z 1) with 1;
      split; lra.
  - split; lra.
  - rewrite inject_Z_plus. change (inject_Z 1) with 1. split; lra.
Qed.

Lemma round_half_even_le y (m : Z) : y <= inject_Z m → (round_half_even y ≤ m)%Z.
Proof.
  intros Hy. unfold round_half_even.
  pose proof (Qfloor_le y) as Hlo.
  assert (Qfloor y ≤ m)%Z as Hf.
  { rewrite Zle_Qle. lra. }
  destruct (Qcompare_spec (y - inject_Z (Qfloor y)) (1 # 2)) as [He|Hl|Hg]; [|done|].
  - destruct (Z.even (Qfloor y)); [done|].
    destruct (decide (Qfloor y = m)) as [E|]; [|lia].
    rewrite E in He. lra.
  - destruct (decide (Qfloor y = m)) as [E|]; [|lia].
    rewrite E in Hg. lra.
Qed.

Lemma round_half_even_ge y (m : Z) : inject_Z m <= y → (m ≤ round_half_even y)%Z.
Proof.
  intros Hy. unfold round_half_even.
  assert (m ≤ Qfloor y)%Z as Hf.
  { rewrite <- (Qfloor_Z m). by apply Qfloor_resp_le. }
  destruct (y - inject_Z (Qfloor y) ?= 1 # 2); [destruct (Z.even _)|..]; lia.
Qed.

(** The rounding error is at most half a unit in the last place. *)
Lemma round64_pos_error x :
  x - 2 ^ ulp_exp x / 2 <= round64_pos x ∧ round64_pos x <= x + 2 ^ ulp_exp x / 2.
Proof.
  unfold round64_pos. set (e := ulp_exp x).
  pose proof (pow2_pos e) as Hp. pose proof (pow2_cancel e) as Hc.
  destruct (round_half_even_bounds (x * 2 ^ (- e))) as [Hlo Hhi].
  set (k := inject_Z (round_half_even (x * 2 ^ (- e)))) in *.
  assert (x * 2 ^ (- e) * 2 ^ e == x) as Hx by (rewrite <- Qmult_assoc, Hc; ring).
  split.
  - apply Qle_trans with ((x * 2 ^ (- e) - (1 # 2)) * 2 ^ e).
    + setoid_replace ((x * 2 ^ (- e) - (1 # 2)) * 2 ^ e)
        with (x * 2 ^ (- e) * 2 ^ e - 2 ^ e / 2) using relation Qeq by field. rewrite Hx. lra.
    + apply Qmult_le_compat_r; lra.
  - apply Qle_trans with ((x * 2 ^ (- e) + (1 # 2)) * 2 ^ e).
    + apply Qmult_le_compat_r; lra.
    + setoid_replace ((x * 2 ^ (- e) + (1 # 2)) * 2 ^ e)
        with (x * 2 ^ (- e) * 2 ^ e + 2 ^ e / 2) using relation Qeq by field. rewrite Hx. lra.
Qed.

(** Rounding does not cross an integer, when the last place is at most a unit. *)
Lemma round64_pos_le_int x (c : Z) :
  (ulp_exp x ≤ 0)%Z → x <= inject_Z c → round64_pos x <= inject_Z c.
Proof.
  intros He Hx. unfold round64_pos. set (e := ulp_exp x) in *.
  pose proof (pow2_pos e) as Hp. pose proof (pow2_cancel e) as Hc.
  pose proof (pow2_pos (- e)) as Hn.
  assert (round_half_even (x * 2 ^ (- e)) ≤ c * 2 ^ (- e))%Z as Hr.
  { apply round_half_even_le. rewrite inject_Z_mult, <- pow2_Z by lia.
    apply Qmult_le_compat_r; lra. }
  rewrite Zle_Qle in Hr. rewrite inject_Z_mult, <- pow2_Z in Hr by lia.
  apply Qle_trans with (inject_Z c * 2 ^ (- e) * 2 ^ e).
  - apply Qmult_le_compat_r; lra.
  - rewrite <- Qmult_assoc, Hc. lra.
Qed.

Lemma round64_pos_ge_int x (c : Z) :
  (ulp_exp x ≤ 0)%Z → inject_Z c <= x → inject_Z c <= round64_pos x.
Proof.
  intros He Hx. unfold round64_pos. set (e := ulp_exp x) in *.
  pose proof (pow2_pos e) as Hp. pose proof (pow2_cancel e) as Hc.
  pose proof (pow2_pos (- e)) as Hn.
  assert (c * 2 ^ (- e) ≤ round_half_even (x * 2 ^ (- e)))%Z as Hr.
  { apply round_half_even_ge. rewrite inject_Z_mult, <- pow2_Z by lia.
    apply Qmult_le_compat_r; lra. }
  rewrite Zle_Qle in Hr. rewrite inject_Z_mult, <- pow2_Z in Hr by lia.
  apply Qle_trans with (inject_Z c * 2 ^ (- e) * 2 ^ e).
  - rewrite <- Qmult_assoc, Hc. lra.
  - apply Qmult_le_compat_r; lra.
Qed.

Lemma round64_nonneg x : 0 <= x → 0 <= round64 x.
Proof.
  intros Hx. unfold round64. rewrite (proj2 (Qle_bool_iff 0 x) Hx).
  unfold round64_pos. apply Qmult_le_0_compat; [|apply Qlt_le_weak, pow2_pos].
  change 0 with (inject_Z 0). rewrite <- Zle_Qle. apply round_half_even_ge.
  apply Qmult_le_0_compat; [done|apply Qlt_le_weak, pow2_pos].
Qed.

(** Below [2^k] the last place is at most [2^(k-53)]. *)
Lemma ulp_exp_below x (k : Z) :
  (1 ≤ k)%Z → x < 2 ^ k → (ulp_exp x ≤ k - 53)%Z.
Proof.
  intros Hk Hx. unfold ulp_exp.
  assert (Qfloor (x * 2 ^ 1126) < 2 ^ (k + 1126))%Z as Hz.
  { rewrite Zlt_Qlt. apply Qle_lt_trans with (x * 2 ^ 1126); [apply Qfloor_le|].
    rewrite <- pow2_Z, Qpower_plus by (lia || done).
    apply Qmult_lt_compat_r; [apply pow2_pos|done]. }
  assert (Z.log2 (Qfloor (x * 2 ^ 1126)) < k + 1126)%Z.
  { destruct (Z.le_gt_cases (Qfloor (x * 2 ^ 1126)) 0) as [Hn|Hp].
    - rewrite Z.log2_nonpos by done. lia.
    - apply Z.log2_lt_pow2; done. }
  lia.
Qed.

(** The largest double below one is [1 - 2^-53]. *)
Lemma binary64_below_one r : binary64 r → r < 1 → r <= 1 - 2 ^ (-53).
Proof.
  intros (m & e & Hm & He & Hr) H1. rewrite Hr in *. clear r Hr.
  pose proof (pow2_pos e) as Hp. pose proof (pow2_pos (-53)) as Hq.
  pose proof (pow2_cancel (-53)) as Hc. change (- -53)%Z with 53%Z in Hc.
  rewrite (pow2_Z 53) in Hc by done.
  destruct (Z.le_gt_cases (-53) e) as [Hge|Hlt].
  - assert (2 ^ e == inject_Z (2 ^ (e + 53)) * 2 ^ (-53)) as Hs.
    { rewrite <- pow2_Z, Qpower_plus, (pow2_Z 53) by (lia || done).
      rewrite <- Qmult_assoc, Hc. ring. }
    rewrite Hs, Qmult_assoc, <- inject_Z_mult in *.
    set (n := (m * 2 ^ (e + 53))%Z) in *.
    set (p := 2 ^ (-53)) in *.
    assert (n < 2 ^ 53)%Z as Hn.
    { apply Z.lt_nge. intros Hn. rewrite Zle_Qle in Hn.
      set (K := inject_Z (2 ^ 53)) in *. nra. }
    assert (n ≤ 2 ^ 53 - 1)%Z as Hn' by lia.
    rewrite Zle_Qle in Hn'. unfold Z.sub in Hn'. rewrite inject_Z_plus in Hn'.
    change (inject_Z (- (1))) with (- (1)) in Hn'.
    set (K := inject_Z (2 ^ 53)) in *. nra.
  - destruct (Z.le_gt_cases m 0) as [Hm0|Hm0].
    + apply Qle_trans with 0; [|by vm_compute].
      rewrite Zle_Qle in Hm0. change (inject_Z 0) with 0 in Hm0. nra.
    + apply Qle_trans with (inject_Z m * 2 ^ (-54)).
      * rewrite !(Qmult_comm (inject_Z m)).
        apply Qmult_le_compat_r; [apply pow2_le; lia|].
        change 0 with (inject_Z 0). rewrite <- Zle_Qle. lia.
      * assert (m ≤ 2 ^ 53)%Z as Hm' by lia. rewrite Zle_Qle in Hm'.
        apply Qle_trans with (inject_Z (2 ^ 53) * 2 ^ (-54)); [|by vm_compute].
        apply Qmult_le_compat_r; [done|by vm_compute].
Qed.

(** A draw scaled by an integer [c] stays below [c] after rounding, for [c] in the
    upper half of its binade. *)
Lemma js_mul_draw_range r (c k : Z) :
  random_value r → (1 ≤ k)%Z → (2 ^ (k - 1) < c ≤ 2 ^ k)%Z →
  0 <= js_mul r (inject_Z c) ∧ js_mul r (inject_Z c) < inject_Z c.
Proof.
  intros [[H0 H1] Hb] Hk [Hc1 Hc2]. unfold js_mul.
  assert (0 < c)%Z as Hc0 by (pose proof (Z.pow_pos_nonneg 2 (k - 1)); lia).
  rewrite Zlt_Qlt in Hc0, Hc1. rewrite Zle_Qle in Hc2.
  rewrite <- pow2_Z in Hc1, Hc2 by lia. change (inject_Z 0) with 0 in Hc0.
  set (C := inject_Z c) in *.
  split; [apply round64_nonneg, Qmult_le_0_compat; lra|].
  pose proof (binary64_below_one r Hb H1) as Hr.
  pose proof (pow2_pos (-53)) as Hp. set (p := 2 ^ (-53)) in *.
  assert (0 <= r * C) as Hx0 by (apply Qmult_le_0_compat; lra).
  assert (r * C <= C - C * p) as Hx1 by nra.
  assert (r * C < 2 ^ k) as Hxk by nra.
  unfold round64. rewrite (proj2 (Qle_bool_iff 0 _) Hx0).
  destruct (round64_pos_error (r * C)) as [_ Herr].
  pose proof (pow2_le _ _ (ulp_exp_below _ _ Hk Hxk)) as He.
  assert (2 ^ (k - 53) == 2 ^ (k - 1) * 2 * p) as Hs.
  { replace (k - 53)%Z with ((k - 1) + (-52))%Z by lia.
    rewrite Qpower_plus by done.
    assert (2 ^ (-52) == 2 * p) as -> by (by vm_compute). ring. }
  set (a := 2 ^ (k - 1)) in *. set (E := 2 ^ ulp_exp (r * C)) in *.
  set (F := 2 ^ (k - 53)) in *.
  assert (a * p < C * p) by (apply Qmult_lt_compat_r; lra).
  assert (E / 2 <= a * p) as HE.
  { apply Qle_trans with (F / 2); [|rewrite Hs; apply Qle_lteq; right; field].
    unfold Qdiv. apply Qmult_le_compat_r; [lra|done]. }
  lra.
Qed.

(** Flooring the rounded product gives the exact floor, or one more. *)
Lemma js_mul_draw_floor r (c k : Z) :
  random_value r → (1 ≤ k ≤ 53)%Z → (2 ^ (k - 1) < c ≤ 2 ^ k)%Z →
  (Qfloor (r * inject_Z c) ≤ Qfloor (js_mul r (inject_Z c)) ≤ Qfloor (r * inject_Z c) + 1)%Z.
Proof.
  intros [[H0 H1] Hb] Hk [Hc1 Hc2]. unfold js_mul.
  assert (0 < c)%Z as Hc0 by (pose proof (Z.pow_pos_nonneg 2 (k - 1)); lia).
  rewrite Zlt_Qlt in Hc0. rewrite Zle_Qle in Hc2.
  rewrite <- pow2_Z in Hc2 by lia. change (inject_Z 0) with 0 in Hc0.
  set (C := inject_Z c) in *.
  assert (0 <= r * C) as Hx0 by (apply Qmult_le_0_compat; lra).
  assert (r * C < 2 ^ k) as Hxk by nra.
  unfold round64. rewrite (proj2 (Qle_bool_iff 0 _) Hx0).
  assert (ulp_exp (r * C) ≤ 0)%Z as He.
  { pose proof (ulp_exp_below (r * C) k ltac:(lia) Hxk). lia. }
  split.
  - rewrite <- (Qfloor_Z (Qfloor (r * C))) at 1. apply Qfloor_resp_le.
    apply round64_pos_ge_int; [done|apply Qfloor_le].
  - rewrite <- (Qfloor_Z (Qfloor (r * C) + 1)). apply Qfloor_resp_le.
    apply round64_pos_le_int; [done|apply Qlt_le_weak, Qlt_floor].
Qed.

(** Adding to 20 a value below 10 stays within [20, 30]: the upper end is reached. *)
Lemma js_add_20_range z : 0 <= z → z < 10 → 20 <= js_add 20 z ∧ js_add 20 z <= 30.
Proof.
  intros Hz0 Hz1. unfold js_add, round64.
  assert (0 <= 20 + z) as Hx0 by lra. rewrite (proj2 (Qle_bool_iff 0 _) Hx0).
  assert (ulp_exp (20 + z) ≤ 0)%Z as He.
  { pose proof (ulp_exp_below (20 + z) 5 ltac:(lia)) as H.
    change (2 ^ 5) with 32 in H. specialize (H ltac:(lra)). lia. }
  split.
  - change 20 with (inject_Z 20) at 1. apply round64_pos_ge_int; [done|].
    change (inject_Z 20) with 20. lra.
  - change 30 with (inject_Z 30). apply round64_pos_le_int; [done|].
    change (inject_Z 30) with 30. lra.
Qed.

(** The rounded product of a draw is within half a last place of the exact
    one. *)
Lemma js_mul_draw_near r (c k : Z) :
  random_value r → (1 ≤ k)%Z → (0 < c ≤ 2 ^ k)%Z →
  r * inject_Z c - 2 ^ (k - 53) / 2 <= js_mul r (inject_Z c)
  ∧ js_mul r (inject_Z c) <= r * inject_Z c + 2 ^ (k - 53) / 2.
Proof.
  intros [[H0 H1] Hb] Hk [Hc0 Hc2]. unfold js_mul.
  rewrite Zlt_Qlt in Hc0. rewrite Zle_Qle in Hc2.
  rewrite <- pow2_Z in Hc2 by lia. change (inject_Z 0) with 0 in Hc0.
  set (C := inject_Z c) in *.
  assert (0 <= r * C) as Hx0 by (apply Qmult_le_0_compat; lra).
  assert (r * C < 2 ^ k) as Hxk by nra.
  unfold round64. rewrite (proj2 (Qle_bool_iff 0 _) Hx0).
  destruct (round64_pos_error (r * C)) as [Hlo Hhi].
  pose proof (pow2_le _ _ (ulp_exp_below _ _ Hk Hxk)) as He.
  set (E := 2 ^ ulp_exp (r * C)) in *. set (F := 2 ^ (k - 53)) in *.
  assert (E / 2 <= F / 2) by (unfold Qdiv; apply Qmult_le_compat_r; [lra|done]).
  split; lra.
Qed.

Lemma Qfloor_eq (y : Q) (d : Z) : inject_Z d <= y → y < inject_Z (d + 1) → Qfloor y = d.
Proof.
  intros Hlo Hhi.
  assert (d ≤ Qfloor y)%Z by (rewrite <- (Qfloor_Z d); by apply Qfloor_resp_le).
  assert (Qfloor y < d + 1)%Z.
  { rewrite Zlt_Qlt. apply Qle_lt_trans with y; [apply Qfloor_le|done]. }
  lia.
Qed.

(** The floor of the rounded product of a draw and the exact product: the
    two agree unless the exact product lies within half a last place below
    an integer, where the rounded one may already be that integer. *)
Lemma js_mul_draw_floor_iff r (c k d : Z) :
  random_value r → (1 ≤ k ≤ 53)%Z → (0 < c ≤ 2 ^ k)%Z →
  (inject_Z d <= r * inject_Z c ∧ r * inject_Z c < inject_Z (d + 1) - 2 ^ (k - 53) / 2
   → Qfloor (js_mul r (inject_Z c)) = d)
  ∧ (Qfloor (js_mul r (inject_Z c)) = d
     → inject_Z d - 2 ^ (k - 53) / 2 <= r * inject_Z c ∧ r * inject_Z c < inject_Z (d + 1)).
Proof.
  intros Hr Hk Hc. destruct (js_mul_draw_near r c k Hr ltac:(lia) Hc) as [Hlo Hhi].
  destruct Hr as [[H0 H1] Hb]. destruct Hc as [Hc0 Hc2].
  rewrite Zlt_Qlt in Hc0. rewrite Zle_Qle in Hc2.
  rewrite <- pow2_Z in Hc2 by lia. change (inject_Z 0) with 0 in Hc0.
  unfold js_mul in *. set (C := inject_Z c) in *.
  assert (0 <= r * C) as Hx0 by (apply Qmult_le_0_compat; lra).
  assert (r * C < 2 ^ k) as Hxk by nra.
  unfold round64 in *. rewrite (proj2 (Qle_bool_iff 0 _) Hx0) in *.
  assert (ulp_exp (r * C) ≤ 0)%Z as He.
  { pose proof (ulp_exp_below (r * C) k ltac:(lia) Hxk). lia. }
  split.
  - intros [Hd1 Hd2]. apply Qfloor_eq.
    + by apply round64_pos_ge_int.
    + lra.
  - intros <-. pose proof (Qfloor_le (round64_pos (r * C))) as Hf1.
    pose proof (Qlt_floor (round64_pos (r * C))) as Hf2.
    split; [lra|].
    apply Qnot_le_lt. intros Hge.
    apply (round64_pos_ge_int _ _ He) in Hge. lra.
Qed.

Lemma js_mul_draw_floor_range r (c k : Z) :
  random_value r → (1 ≤ k)%Z → (2 ^ (k - 1) < c ≤ 2 ^ k)%Z →
  (0 ≤ Qfloor (js_mul r (inject_Z c)) < c)%Z.
Proof.
  intros Hr Hk Hc. destruct (js_mul_draw_range r c k Hr Hk Hc) as [H0 H1]. split.
  - change 0%Z with (Qfloor 0). by apply Qfloor_resp_le.
  - rewrite Zlt_Qlt. apply Qle_lt_trans with (js_mul r (inject_Z c)); [apply Qfloor_le|done].
Qed.

End Rounding.

(** ** Properties *)

Section Properties.

Variable toISOString : Z → string.
Variable content_length : json → string.
Variable base36_id : Q → string.
Variable math_sqrt : Z → Q.
Variable is_fresh : gmap string string → json → bool.

Abbreviation handle_request' := (handle_request toISOString content_length base36_id math_sqrt is_fresh).
Abbreviation request_events' := (request_events toISOString content_length base36_id math_sqrt is_fresh).
Abbreviation request_trace' := (request_trace toISOString content_length base36_id math_sqrt is_fresh).
Abbreviation handle_request_with' :=
  (handle_request_with toISOString content_length base36_id math_sqrt is_fresh).
Abbreviation request_events_with' :=
  (request_events_with toISOString content_length base36_id math_sqrt is_fresh).
Abbreviation serve' := (serve toISOString content_length base36_id math_sqrt is_fresh).
Abbreviation serve_with' := (serve_with toISOString content_length base36_id math_sqrt is_fresh).
Abbreviation req_fresh' := (req_fresh is_fresh).

(** *** The loop of /cpu-intensive *)

Lemma cpu_acc_0 rnd i acc c : cpu_acc math_sqrt rnd i acc c 0 = acc.
Proof. reflexivity. Qed.

Lemma cpu_acc_succ rnd i acc c m :
  cpu_acc math_sqrt rnd i acc c (N.succ m) =
  js_add (cpu_acc math_sqrt rnd i acc c m) (js_mul (math_sqrt (i + Z.of_N m)) (rnd (c + m)%N)).
Proof. unfold cpu_acc. rewrite N.recursion_succ; [done..|]. intros ?? -> ?? ->. done. Qed.

(** One round of the body first, or one round last: the same accumulator. *)
Lemma cpu_acc_shift rnd i acc c m :
  cpu_acc math_sqrt rnd (i + 1) (js_add acc (js_mul (math_sqrt i) (rnd c))) (N.succ c) m =
  cpu_acc math_sqrt rnd i acc c (N.succ m).
Proof.
  induction m as [|m IH] using N.peano_ind.
  - rewrite cpu_acc_succ, !cpu_acc_0. by rewrite Z.add_0_r, N.add_0_r.
  - rewrite cpu_acc_succ, IH, (cpu_acc_succ _ _ _ _ (N.succ m)).
    replace (i + 1 + Z.of_N m)%Z with (i + Z.of_N (N.succ m))%Z by lia.
    by replace (N.succ c + m)%N with (c + N.succ m)%N by lia.
Qed.

(** The loop terminates with [i = n], after [n - i] rounds and as many draws. *)
Lemma cpu_loop_spec n i acc w :
  (i <= n)%Z →
  cpu_loop math_sqrt n i acc w =
  (n, cpu_acc math_sqrt (w_random w) i acc (w_rcur w) (Z.to_N (n - i)),
   with_rcur (w_rcur w + Z.to_N (n - i)) w).
Proof.
  funelim (cpu_loop math_sqrt n i acc w); intros Hle.
  - rewrite H by lia. clear H Heqcall.
    replace (Z.to_N (n - i)) with (N.succ (Z.to_N (n - (i + 1)))) by lia.
    rewrite <- cpu_acc_shift. destruct w; simpl. unfold with_rcur; simpl.
    do 2 f_equal. lia.
  - assert (i = n) by lia. subst. rewrite Z.sub_diag. change (Z.to_N 0) with 0%N.
    rewrite cpu_acc_0, N.add_0_r. by destruct w.
Qed.

Lemma cpu_work_spec w :
  cpu_work math_sqrt w =
  (Ok (spec_cpu_sum math_sqrt (w_random w) (w_rcur w) 1000000),
   with_rcur (w_rcur w + 1000000) w).
Proof.
  unfold cpu_work, spec_cpu_sum.
  rewrite cpu_loop_spec by (unfold iterations; lia).
  change (Z.to_N (iterations - 0)) with 1000000%N.
  cbn [fst snd]. reflexivity.
Qed.

Lemma cpu_acc_nonneg rnd i acc c m :
  (∀ z, 0 <= math_sqrt z)%Q → (∀ k, 0 <= rnd k)%Q → (0 <= acc)%Q →
  (0 <= cpu_acc math_sqrt rnd i acc c m)%Q.
Proof.
  intros Hsqrt Hrnd Hacc. induction m as [|m IH] using N.peano_ind.
  - by rewrite cpu_acc_0.
  - rewrite cpu_acc_succ. apply round64_nonneg.
    apply Qle_trans with (0 + 0)%Q; [done|].
    apply Qplus_le_compat; [done|]. by apply round64_nonneg, Qmult_le_0_compat.
Qed.

(** *** Running one request *)

(** A 404 and a 500 are never answered from the freshness check. *)
Lemma req_fresh_404 req body : req_fresh' req 404 body = false.
Proof. unfold req_fresh. by destruct (is_get req). Qed.

Lemma req_fresh_500 req body : req_fresh' req 500 body = false.
Proof. unfold req_fresh. by destruct (is_get req). Qed.

Ltac exec_all := exec; rewrite ?cpu_work_spec, ?req_fresh_404, ?req_fresh_500; exec.

(** Case analysis on what the environment answers, as the code asks. *)
Ltac split_oracles :=
  exec_all;
  repeat (match goal with
    | |- context [match ?f ?c with Some _ => _ | None => _ end] => destruct (f c) eqn:?
    | |- context [match ?a with Some _ => _ | None => _ end] => is_var a; destruct a
    | |- context [if should_fail ?r then _ else _] => destruct (should_fail r) eqn:?
    | |- context [if req_fresh ?f ?q ?c ?b then _ else _] => destruct (req_fresh f q c b) eqn:?
    end; exec_all).

Ltac run req w :=
  destruct w as [clock ccur random rcur throws tcur memory uptime active next res log];
  destruct (route_of req) eqn:Hroute;
  exec; rewrite ?Hroute; split_oracles.

(** No handler reads the log: a request appends its events to it. *)
Lemma handle_request_with_log fate req w :
  w_log (handle_request_with' fate req w) = request_events_with' fate req w ++ w_log w.
Proof. destruct fate; run req w; reflexivity. Qed.

Lemma handle_request_log req w :
  w_log (handle_request' req w) = request_events' req w ++ w_log w.
Proof. exact (handle_request_with_log Finishes req w). Qed.

(** What a request adds to the module-level instruments. *)
Lemma request_with_adds fate req w :
  instrument_value httpRequestsTotal (request_events_with' fate req w) = 1%Z
  ∧ length (recorded_values httpRequestDuration (request_events_with' fate req w)) =
      match fate with Finishes => 1 | ClientGone => 0 end
  ∧ instrument_value activeConnections (request_events_with' fate req w) =
      match fate with Finishes => 0 | ClientGone => 1 end%Z.
Proof. destruct fate; run req w; views; split_and!; reflexivity. Qed.

Lemma serve_with_cons fate req reqs w :
  serve_with' ((req, fate) :: reqs) w = serve_with' reqs (handle_request_with' fate req w).
Proof. reflexivity. Qed.

(** C1. Every span started while a request is handled is started once and
    then ended exactly once, whatever the route, the random draws and the
    exceptions of the runtime: the request span of the middleware is open
    until the response has been written and is ended by the last event of the
    request; the child span of /db-query is ended on every path through its
    try block; no other span is started or ended, and for every span the
    request makes as many [end] calls as [startSpan] calls, at most one. *)
Theorem spans_closed_exactly_once req w :
  let trace := request_trace' req w in
  let root := AppSpan (w_next_span w) in
  let child := AppSpan (S (w_next_span w)) in
  span_state root trace = Ended
  ∧ last trace = Some (EEndSpan root)
  ∧ count_events is_send trace = 1
  ∧ span_state child trace = (if is_async (route_of req) then Ended else Unstarted)
  ∧ ∀ s, span_state s trace =
           match count_events (is_start s) trace with 0 => Unstarted | _ => Ended end
         ∧ count_events (is_start s) trace ≤ 1
         ∧ count_events (is_end s) trace = count_events (is_start s) trace.
Proof.
  run req w; views; split_and!; span_cases.
Qed.


Lemma round3_millis z : (round3 (inject_Z z / 1000) == inject_Z z / 1000)%Q.
Proof.
  unfold round3, math_round.
  assert (E : (inject_Z z / 1000 * 1000 + (1 # 2) == inject_Z (2 * z + 1) / inject_Z 2)%Q).
  { rewrite inject_Z_plus, inject_Z_mult. field. }
  rewrite E, <- Zdiv_Qdiv.
  replace ((2 * z + 1) / 2)%Z with z; [reflexivity|].
  apply Z.div_unique with 1%Z; lia.
Qed.

Lemma instrument_value_app i l1 l2 :
  instrument_value i (l1 ++ l2) = (instrument_value i l1 + instrument_value i l2)%Z.
Proof.
  induction l1 as [|e l1 IH]; [done|].
  destruct e; simpl; try done. case_decide; lia.
Qed.

Lemma count_events_app p l1 l2 :
  count_events p (l1 ++ l2) = count_events p l1 + count_events p l2.
Proof. induction l1 as [|e l1 IH]; [done|]. cbn. rewrite IH. lia. Qed.

(** A request leaves the active-connection counter where it found it. *)
Lemma request_leaves_connections req w :
  instrument_value activeConnections (request_events' req w) = 0%Z.
Proof. exact (proj2 (proj2 (request_with_adds Finishes req w))). Qed.

Lemma serve_cons req reqs w :
  serve toISOString content_length base36_id math_sqrt is_fresh (req :: reqs) w =
  serve toISOString content_length base36_id math_sqrt is_fresh reqs (handle_request' req w).
Proof. reflexivity. Qed.

(** No request creates a counter, a histogram or an up/down counter. *)
Lemma request_creates_only_gauges req w k name :
  k ≠ Gauge → count_events (is_create_of k name) (request_events' req w) = 0.
Proof.
  intros Hk. run req w; views; try reflexivity.
  all: rewrite !bool_decide_eq_false_2 by congruence; reflexivity.
Qed.

(** X16. Over the life of the process (module initialisation, then any
    sequence of requests) each of the three module-level instruments is
    created exactly once. *)
Lemma module_instruments_created_once reqs w i :
  i ∈ module_instruments →
  count_events (is_create_of (ins_kind i) (ins_name i))
    (w_log (serve toISOString content_length base36_id math_sqrt is_fresh reqs (boot w))) =
  S (count_events (is_create_of (ins_kind i) (ins_name i)) (w_log w)).
Proof.
  intros Hi.
  assert (Hk : ins_kind i ≠ Gauge).
  { unfold module_instruments in Hi. rewrite !elem_of_cons, elem_of_nil in Hi.
    destruct Hi as [->|[->|[->|[]]]]; discriminate. }
  assert (Hserve : ∀ w', count_events (is_create_of (ins_kind i) (ins_name i))
            (w_log (serve toISOString content_length base36_id math_sqrt is_fresh reqs w')) =
          count_events (is_create_of (ins_kind i) (ins_name i)) (w_log w')).
  { induction reqs as [|req reqs IH]; intros w'; [done|].
    rewrite serve_cons, IH, handle_request_log, count_events_app, request_creates_only_gauges; done. }
  rewrite Hserve. destruct w. exec. views.
  unfold module_instruments in Hi. rewrite !elem_of_cons, elem_of_nil in Hi.
  destruct Hi as [->|[->|[->|[]]]]; reflexivity.
Qed.

(** C7. For every request, the active-connection up/down counter receives
    exactly one [+1], at request entry (the fourth call of the middleware,
    before any handler runs), and exactly one [-1], in the finish listener
    (the call before the span is ended); after the request its value is what
    it was before, on every path. *)
Theorem active_connections_balanced req w :
  let events := request_events' req w in
  instrument_value activeConnections (w_log (handle_request' req w)) =
    instrument_value activeConnections (w_log w)
  ∧ count_events (is_add activeConnections 1) events = 1
  ∧ count_events (is_add activeConnections (-1)) events = 1
  ∧ reverse events !! 3 = Some (EAdd activeConnections 1 [])
  ∧ events !! 1 = Some (EAdd activeConnections (-1) []).
Proof.
  cbv zeta. split.
  { rewrite handle_request_log, instrument_value_app, request_leaves_connections. lia. }
  run req w; views; split_and!; reflexivity.
Qed.

Lemma finish_attrs_no_user_agent (v1 v2 : AttrValue) :
  (list_to_map [("http.status_code", v1); ("http.response_size", v2)] : gmap string AttrValue)
    !! "http.user_agent" = None.
Proof. cbn [list_to_map foldr]. by rewrite !lookup_insert_ne, lookup_empty. Qed.

Lemma entry_attrs_user_agent (v1 v2 v3 : AttrValue) :
  (list_to_map [("http.method", v1); ("http.url", v2); ("http.user_agent", v3)]
     : gmap string AttrValue) !! "http.user_agent" = Some v3.
Proof. cbn [list_to_map foldr]. rewrite 2!lookup_insert_ne by done. apply lookup_insert_eq. Qed.

(** C10. For a request without a User-Agent header the middleware sets the
    attribute [http.user_agent] of the request span to the string "unknown",
    and the span still carries that value when the request is over. *)
Theorem user_agent_defaults_to_unknown req w :
  req_get req "User-Agent" = None →
  let root := AppSpan (w_next_span w) in
  reverse (request_events' req w) !! 1 =
    Some (ESetAttributes root [("http.method", AStr (req_method req));
                               ("http.url", AStr (req_url req));
                               ("http.user_agent", AStr "unknown")])
  ∧ span_attrs root (w_log (handle_request' req w)) !! "http.user_agent" = Some (AStr "unknown").
Proof.
  intros Hua. cbv zeta. rewrite handle_request_log.
  run req w; rewrite Hua; change (or_else AStr None (AStr "unknown")) with (AStr "unknown");
    views; (split; [reflexivity|]).
  all: cbn [span_attrs app]; repeat case_decide; span_cases.
  all: rewrite lookup_union_r by apply finish_attrs_no_user_agent;
    apply lookup_union_Some_l, entry_attrs_user_agent.
Qed.


(** The finish listener records the seconds between the reading captured at
    entry and the reading it takes itself. *)
Lemma on_finish_records h w :
  recorded_values httpRequestDuration (new_events (on_finish h) w) =
    [(inject_Z (w_clock w (w_ccur w) - fh_startTime h) / 1000)%Q].
Proof. destruct w; exec; views. reflexivity. Qed.

(** C2. For every request the finish listener records one value into the
    duration histogram: the milliseconds between the clock reading of the
    middleware at entry and the reading of the listener, divided by 1000;
    that value equals its own rounding to 3 decimals. *)
Theorem duration_recorded_in_seconds req w :
  let start := w_clock w (w_ccur w) in
  let now := w_clock w (N.pred (w_ccur (handle_request' req w))) in
  recorded_values httpRequestDuration (request_events' req w) =
    [(inject_Z (now - start) / 1000)%Q]
  ∧ (inject_Z (now - start) / 1000 == spec_elapsed_seconds start now)%Q.
Proof.
  cbv zeta. split; [|symmetry; apply round3_millis].
  run req w; rewrite N.pred_succ; views; reflexivity.
Qed.

(** C4 (amended). Module initialisation creates the counter, the histogram
    and the up/down counter, once each.  A request creates no instrument,
    except that the /metrics-demo handler creates its two gauges on every
    invocation; every write of a request goes to a module-level instrument or
    to a gauge the same request has just created. *)
Theorem instruments_created_at_startup_or_by_metrics_demo req w :
  trace_of startup w =
    [ECreate Counter "http_requests_total";
     ECreate Histogram "http_request_duration_seconds";
     ECreate UpDownCounter "active_connections"]
  ∧ List.filter is_create (request_trace' req w) =
      match route_of req, w_throws w (w_tcur w) with
      | RMetricsDemo, None =>
          [ECreate Gauge "demo_custom_value"; ECreate Gauge "room_temperature_celsius"]
      | _, _ => []
      end
  ∧ writes_to_existing module_instruments (request_trace' req w) = true.
Proof.
  split; [by destruct w|].
  run req w; views; split; reflexivity.
Qed.


(** *** Single handlers *)

Ltac run_handler w Hres :=
  destruct w as [clock ccur random rcur throws tcur memory uptime active next res log];
  destruct res as [status clen body sent listeners rq];
  destruct Hres as [Hstatus Hsent]; cbn in Hstatus, Hsent; subst status sent;
  split_oracles.

Lemma should_fail_iff r : should_fail r = true ↔ (r < 3 # 10)%Q.
Proof.
  unfold should_fail, js_lt. rewrite negb_true_iff, <- not_true_iff_false, Qle_bool_iff.
  split; [apply Qnot_le_lt | apply Qlt_not_le].
Qed.

Lemma should_fail_grid (k : nat) (p : positive) :
  should_fail (inject_Z (Z.of_nat k) / inject_Z (Z.pos p)) = (10 * k <? 3 * Pos.to_nat p).
Proof.
  apply eq_true_iff_eq. rewrite should_fail_iff, Nat.ltb_lt.
  unfold Qlt, Qdiv, Qmult, Qinv, inject_Z; cbn. lia.
Qed.

Lemma count_below (a n : nat) :
  length (List.filter (λ k, k <? a) (seq 0 n)) = a `min` n.
Proof.
  induction n as [|n IH]; [cbn; lia|].
  rewrite seq_S, List.filter_app, length_app, IH. cbn [List.filter Nat.add].
  destruct (Nat.ltb_spec n a); cbn [length]; lia.
Qed.

Lemma failing_draws_tenths (m : nat) : 0 < m → failing_draws (10 * m) = 3 * m.
Proof.
  intros Hm. unfold failing_draws, grid.
  assert (Z.of_nat (10 * m) = Z.pos (Pos.of_nat (10 * m))) as -> by lia.
  replace (3 * m) with ((3 * m) `min` (10 * m)) by lia.
  rewrite <- count_below.
  generalize (seq 0 (10 * m)). intros l. induction l as [|k l IH]; [done|].
  cbn [fmap list_fmap List.filter]. rewrite should_fail_grid.
  replace (10 * k <? 3 * Pos.to_nat (Pos.of_nat (10 * m))) with (k <? 3 * m).
  - destruct (k <? 3 * m); cbn [length]; by rewrite IH.
  - apply eq_true_iff_eq. rewrite !Nat.ltb_lt. lia.
Qed.

(** C3. Invoked on a response not yet written, the /flaky handler fails
    exactly when its random draw is below 0.3: it then records the error on
    the active span (when there is one), logs it and answers 500 with the
    error body; otherwise it notes the success on the span, records no
    exception and calls [res.json] with the success body on status 200.  The
    response ends with status 500 exactly in the first case.  Over the draws
    of an even grid of [0, 1) in tenths, exactly 3 in 10 fail. *)
Theorem flaky_fails_below_threshold w :
  unsent (w_res w) →
  let r := w_random w (w_rcur w) in
  let w' := (flaky_handler toISOString content_length is_fresh w).2 in
  let events := new_events (flaky_handler toISOString content_length is_fresh) w in
  let error := new_Error "Simulated random error" in
  let failure := JObj [("error", JStr "Something went wrong!")] in
  let success := JObj [("message", JStr "Success!");
                       ("timestamp", JStr (toISOString (w_clock w (w_ccur w))));
                       ("success", JBool true)] in
  (should_fail r = true ↔ (r < 3 # 10)%Q)
  ∧ trace_of (flaky_handler toISOString content_length is_fresh) w =
      (if should_fail r then
         match w_active w with
         | Some n => [ERecordException (AutoSpan n) error;
                      ESetStatus (AutoSpan n) 2 (Some "Random error occurred")]
         | None => []
         end ++ [EConsoleError "Flaky endpoint error:" (LStr "Simulated random error");
                 ESend 500 failure]
       else
         match w_active w with
         | Some n => [EAddEvent (AutoSpan n) "Flaky endpoint succeeded" []]
         | None => []
         end ++ [ESend 200 success])
  ∧ sends events = [if should_fail r then (500%Z, failure) else (200%Z, success)]
  ∧ (statusCode (w_res w') = 500%Z ↔ should_fail r = true)
  ∧ (should_fail r = true → res_body (w_res w') = Some failure)
  ∧ (∀ n, span_exceptions (AutoSpan n) events =
          if should_fail r && bool_decide (w_active w = Some n) then [error] else [])
  ∧ (∀ m, failing_draws (10 * S m) = 3 * S m).
Proof.
  intros Hres. cbv zeta. split; [apply should_fail_iff|].
  run_handler w Hres; views; cbn [sends]; split_and!; try reflexivity; try done;
    try (intros m; apply failing_draws_tenths; lia).
  all: intros n0; cbn [andb]; repeat (case_decide || case_bool_decide); congruence.
Qed.

(** C5. Invoked on a response not yet written, the /hello handler computes
    [delay = floor(r * 500)] from its random draw [r], the product being
    rounded to a double: an integer of [0, 500), which is the floor of the
    exact product or, when that product is within 2^-45 below an integer,
    possibly that integer.  So each value [d] is drawn from an interval of
    draws of length 1/500, up to 2^-45/500 at its lower end and at its upper
    end.  The handler arms a timer of [delay] milliseconds and writes the
    response only after that timer; the [delay] field of the body is the
    delay that timer was given. *)
Theorem hello_waits_for_its_delay w :
  unsent (w_res w) →
  random_value (w_random w (w_rcur w)) →
  let r := w_random w (w_rcur w) in
  let delay := math_floor (js_mul r 500) in
  (0 <= delay < 500)%Z
  ∧ (math_floor (r * 500) <= delay <= math_floor (r * 500) + 1)%Z
  ∧ (∀ d, (inject_Z d <= r * 500 ∧ r * 500 < inject_Z (d + 1) - 2 ^ (-45))%Q → delay = d)
  ∧ (∀ d, delay = d → (inject_Z d - 2 ^ (-45) <= r * 500 ∧ r * 500 < inject_Z (d + 1))%Q)
  ∧ trace_of (hello_handler content_length base36_id is_fresh) w =
      match w_active w with
      | Some n => [EAddEvent (AutoSpan n) "Processing hello request" [("delay", aint delay)]]
      | None => []
      end
      ++ [ETimeout delay;
          ESend 200 (JObj [("message", JStr "Hello, Observability from Node.js!");
                           ("delay", jint delay);
                           ("requestId", JStr (base36_id (w_random w (N.succ (w_rcur w)))))])].
Proof.
  intros Hres Hr. cbv zeta. unfold math_floor.
  assert (Hc : (2 ^ (9 - 1) < 500 ≤ 2 ^ 9)%Z) by (by compute).
  assert (Hc' : (0 < 500 ≤ 2 ^ 9)%Z) by (by compute).
  assert (Hp : (2 ^ (9 - 53) / 2 == 2 ^ (-45))%Q) by (by compute).
  split; [|split; [|split; [|split]]].
  - apply (js_mul_draw_floor_range _ 500 9 Hr); [lia|exact Hc].
  - apply (js_mul_draw_floor _ 500 9 Hr); [lia|exact Hc].
  - intros d Hd. apply (js_mul_draw_floor_iff _ 500 9 d Hr); [lia|exact Hc'|].
    rewrite Hp. exact Hd.
  - intros d Hd. rewrite <- Hp. by apply (js_mul_draw_floor_iff _ 500 9 d Hr); [lia|exact Hc'|].
  - clear Hr. run_handler w Hres; views; reflexivity.
Qed.

Lemma memory_attrs_no_rss usage :
  (list_to_map (memory_attrs usage) : gmap string AttrValue) !! "memory.rss" = None.
Proof.
  unfold memory_attrs. cbn [list_to_map foldr].
  by rewrite !lookup_insert_ne, lookup_empty.
Qed.

Lemma memory_attrs_values usage k v :
  (list_to_map (memory_attrs usage) : gmap string AttrValue) !! k = Some v →
  v = aint (heapUsed usage) ∨ v = aint (heapTotal usage) ∨ v = aint (external usage).
Proof.
  unfold memory_attrs. cbn [list_to_map foldr].
  rewrite !lookup_insert_Some, lookup_empty.
  intros [[_ <-]|[_ [[_ <-]|[_ [[_ <-]|[_ [=]]]]]]]; auto.
Qed.

(** C6 (amended). Invoked on a response not yet written, the /memory
    handler attaches to the active span, when there is one, the raw byte
    values of heap used, heap total and external memory, under the keys
    [memory.heap_used], [memory.heap_total] and [memory.external], and
    nothing else: the resident set size appears in the response body only,
    as do the rounded megabytes of the other three. *)
Theorem memory_attaches_heap_and_external w :
  unsent (w_res w) →
  let usage := w_memory w in
  let events := new_events (memory_handler toISOString content_length is_fresh) w in
  trace_of (memory_handler toISOString content_length is_fresh) w =
    match w_active w with
    | Some n => [ESetAttributes (AutoSpan n) (memory_attrs usage)]
    | None => []
    end
    ++ [ESend 200
          (JObj [("memory", JObj [("heapUsed", JStr (megabytes (heapUsed usage)));
                                  ("heapTotal", JStr (megabytes (heapTotal usage)));
                                  ("external", JStr (megabytes (external usage)));
                                  ("rss", JStr (megabytes (rss usage)))]);
                 ("timestamp", JStr (toISOString (w_clock w (w_ccur w))))])]
  ∧ (∀ n, span_attrs (AutoSpan n) events =
          if bool_decide (w_active w = Some n) then list_to_map (memory_attrs usage) else ∅)
  ∧ (∀ n, span_attrs (AutoSpan n) events !! "memory.rss" = None).
Proof.
  intros Hres. cbv zeta.
  pose proof memory_attrs_no_rss as Hrss.
  run_handler w Hres; views; (split; [reflexivity|]).
  - split; intros n0; cbn [span_attrs]; repeat (case_decide || case_bool_decide);
      try congruence.
    + rewrite (right_id_L ∅ (∪)). done.
    + rewrite (right_id_L ∅ (∪)). apply Hrss.
    + done.
  - split; intros n0; cbn [span_attrs]; repeat (case_decide || case_bool_decide);
      try congruence; done.
Qed.

(** C8. Invoked on a response not yet written, with [Math.sqrt]
    non-negative and the random draws in [0, 1), the /cpu-intensive handler
    runs its loop body exactly 1,000,000 times (the loop exits with
    [i = 1000000] and has taken one draw per round).  It then calls
    [res.json], on status 200, with a body that carries
    [iterations = 1000000] and, as [result], the rounding of the sum of
    [sqrt(i) * random] over [i = 0 .. 999999] as the loop has accumulated it
    in doubles, which is not negative; the unrounded sum goes to the active
    span. *)
Theorem cpu_intensive_runs_a_million_rounds w :
  (∀ z, 0 <= math_sqrt z)%Q →
  (∀ k, unit_interval (w_random w k)) →
  unsent (w_res w) →
  let sum := spec_cpu_sum math_sqrt (w_random w) (w_rcur w) 1000000 in
  let w' := (cpu_intensive_handler toISOString content_length math_sqrt is_fresh w).2 in
  cpu_loop math_sqrt iterations 0 0 w = (1000000%Z, sum, with_rcur (w_rcur w + 1000000) w)
  ∧ w_rcur w' = (w_rcur w + 1000000)%N
  ∧ (0 <= sum)%Q
  ∧ (0 <= math_round sum)%Z
  ∧ trace_of (cpu_intensive_handler toISOString content_length math_sqrt is_fresh) w =
      match w_active w with
      | Some n => [EAddEvent (AutoSpan n) "Starting CPU intensive operation" [];
                   EAddEvent (AutoSpan n) "CPU intensive operation completed"
                     [("iterations", aint 1000000); ("result", ANum sum)]]
      | None => []
      end
      ++ [ESend 200 (JObj [("message", JStr "CPU intensive operation completed");
                           ("iterations", jint 1000000);
                           ("result", jint (math_round sum));
                           ("timestamp", JStr (toISOString (w_clock w (w_ccur w))))])].
Proof.
  intros Hsqrt Hrnd Hres. cbv zeta.
  assert (Hsum : (0 <= spec_cpu_sum math_sqrt (w_random w) (w_rcur w) 1000000)%Q).
  { apply cpu_acc_nonneg; [done| |done]. intros k. apply Hrnd. }
  split_and!; [| | exact Hsum | |].
  - rewrite cpu_loop_spec by (unfold iterations; lia).
    change (Z.to_N (iterations - 0)) with 1000000%N.
    unfold spec_cpu_sum, iterations. reflexivity.
  - clear Hsum Hrnd. run_handler w Hres; reflexivity.
  - clear Hrnd. revert Hsum.
    generalize (spec_cpu_sum math_sqrt (w_random w) (w_rcur w) 1000000). intros sum Hsum.
    unfold math_round. change 0%Z with (Qfloor 0). apply Qfloor_resp_le. lra.
  - clear Hsum Hrnd. run_handler w Hres; views; reflexivity.
Qed.

(** C9. Whatever error reaches the error handler, the response is the same:
    status 500 and, on a response not yet written, the fixed body
    [{error: "Internal Server Error", timestamp}].  Two runs that differ only
    in the error leave the same response object and write the same bytes to
    the client; message and stack go to the span and the console only. *)
Theorem error_response_independent_of_error err1 err2 w :
  let run err := (error_handler toISOString content_length is_fresh err w).2 in
  let sent err := List.filter is_send (new_events (error_handler toISOString content_length is_fresh err) w) in
  w_res (run err1) = w_res (run err2)
  ∧ sent err1 = sent err2
  ∧ statusCode (w_res (run err1)) = 500%Z
  ∧ res_body (w_res (run err1)) =
      (if headersSent (w_res w) then res_body (w_res w)
       else Some (JObj [("error", JStr "Internal Server Error");
                        ("timestamp", JStr (toISOString (w_clock w (w_ccur w))))])).
Proof.
  cbv zeta.
  destruct w as [clock ccur random rcur throws tcur memory uptime active next res log].
  destruct res as [status clen body sent listeners rq].
  destruct sent, active; exec_all; views; split_and!; reflexivity.
Qed.

(** *** Further properties of the request path *)

Ltac fresh_cases :=
  repeat match goal with
    | H : req_fresh _ _ _ _ = _ |- _ => rewrite H
    end;
  rewrite ?req_fresh_404, ?req_fresh_500.

(** X4. The answer to a request whose response reaches the client.  Exactly
    one call of [res.json] goes through: on status 500 when the runtime cuts
    a synchronous handler short or raises inside the try block of /db-query,
    and when /flaky draws a failure; on 404 when no route matches; on 200
    otherwise.  Express sends the answer with that status and body, except
    that it answers a request it finds fresh with 304, no body and no
    Content-Length; that happens to answers on 200 only. *)
Theorem response_status req w :
  let w' := handle_request' req w in
  let thrown := w_throws w (w_tcur w) in
  let called :=
    match route_of req with
    | RDbQuery =>
        match thrown, w_throws w (N.succ (w_tcur w)) with
        | None, None => 200
        | _, _ => 500
        end
    | RFlaky =>
        match thrown with
        | Some _ => 500
        | None => if should_fail (w_random w (w_rcur w)) then 500 else 200
        end
    | RNotFound => match thrown with Some _ => 500 | None => 404 end
    | _ => match thrown with Some _ => 500 | None => 200 end
    end%Z in
  ∃ body,
    sends (request_events' req w) = [(called, body)]
    ∧ statusCode (w_res w') = (if req_fresh' req called body then 304 else called)%Z
    ∧ res_body (w_res w') = (if req_fresh' req called body then None else Some body)
    ∧ content_length_header (w_res w') = content_length <$> res_body (w_res w')
    ∧ headersSent (w_res w') = true
    ∧ (called ≠ 200%Z → statusCode (w_res w') = called).
Proof.
  cbv zeta.
  run req w; eexists; (split; [views; reflexivity|]); fresh_cases;
    split_and!; try reflexivity; try done.
Qed.

Lemma recorded_values_app i l1 l2 :
  recorded_values i (l1 ++ l2) = recorded_values i l1 ++ recorded_values i l2.
Proof.
  induction l1 as [|e l1 IH]; [done|].
  destruct e; simpl; try done. case_decide; [by rewrite IH|done].
Qed.

Lemma request_adds_one req w :
  instrument_value httpRequestsTotal (request_events' req w) = 1%Z
  ∧ length (recorded_values httpRequestDuration (request_events' req w)) = 1.
Proof.
  destruct (request_with_adds Finishes req w) as (H1 & H2 & _). split; [exact H1|exact H2].
Qed.

(** X1. The middleware counts every request, matched or not, once: the third
    call of a request adds 1 to [http_requests_total] with the tags
    [method] and [endpoint] (the request path), and the counter ends the
    request one above where it started. *)
Theorem request_counted req w :
  let events := request_events' req w in
  reverse events !! 2 =
    Some (EAdd httpRequestsTotal 1 [("method", req_method req); ("endpoint", req_path req)])
  ∧ instrument_value httpRequestsTotal (w_log (handle_request' req w)) =
      (instrument_value httpRequestsTotal (w_log w) + 1)%Z.
Proof.
  cbv zeta. split.
  - run req w; views; reflexivity.
  - rewrite handle_request_log, instrument_value_app.
    destruct (request_adds_one req w) as [-> _]. lia.
Qed.

(** X2. Requests served one after another, each response reaching its client
    or not: the request counter grows by the number of requests; the
    duration histogram receives one value for each response that reaches its
    client, and none for a request whose client has gone. *)
Theorem serve_counts_requests reqs w :
  let w' := serve_with' reqs w in
  instrument_value httpRequestsTotal (w_log w') =
    (instrument_value httpRequestsTotal (w_log w) + Z.of_nat (length reqs))%Z
  ∧ length (recorded_values httpRequestDuration (w_log w')) =
      length (recorded_values httpRequestDuration (w_log w)) + finished reqs
  ∧ finished reqs + abandoned reqs = length reqs.
Proof.
  cbv zeta. revert w. induction reqs as [|[req fate] reqs IH]; intros w.
  - cbn. split_and!; lia.
  - rewrite serve_with_cons. destruct (IH (handle_request_with' fate req w)) as (-> & -> & Hlen).
    rewrite handle_request_with_log, instrument_value_app, recorded_values_app, length_app.
    destruct (request_with_adds fate req w) as (-> & -> & _).
    unfold finished, abandoned in *. destruct fate; cbn [List.filter snd length] in *; split_and!; lia.
Qed.

(** X3. The active-connection counter over requests served one after
    another: a response that reaches its client leaves the counter where the
    request found it, a request whose client has gone leaves it one higher.
    After any sequence of requests the counter stands above its initial
    value by the number of responses that did not reach their client; it is
    back at that value if all of them did. *)
Theorem serve_leaves_connections reqs w :
  instrument_value activeConnections (w_log (serve_with' reqs w)) =
    (instrument_value activeConnections (w_log w) + Z.of_nat (abandoned reqs))%Z
  ∧ (abandoned reqs = 0 ↔ Forall (λ rf, rf.2 = Finishes) reqs).
Proof.
  split.
  - revert w. induction reqs as [|[req fate] reqs IH]; intros w; [cbn; lia|].
    rewrite serve_with_cons, IH, handle_request_with_log, instrument_value_app.
    destruct (request_with_adds fate req w) as (_ & _ & ->).
    unfold abandoned. destruct fate; cbn [List.filter snd length]; lia.
  - unfold abandoned. induction reqs as [|[req fate] reqs IH].
    + split; [constructor|done].
    + rewrite Forall_cons. destruct fate; cbn [List.filter snd length].
      * rewrite IH. split; [by split|by intros [_ ?]].
      * split; [lia|]. intros [[=] _].
Qed.

Lemma finish_attrs_status (v1 v2 : AttrValue) (m : gmap string AttrValue) :
  (list_to_map [("http.status_code", v1); ("http.response_size", v2)] ∪ m)
    !! "http.status_code" = Some v1.
Proof. apply lookup_union_Some_l. cbn [list_to_map foldr]. apply lookup_insert_eq. Qed.

(** X5. What the finish listener reports is the response as Express has
    sent it: the attribute [http.status_code] of the request span is the
    final status (304 for a request Express found fresh),
    [http.response_size] is the Content-Length header of the body sent, and
    the number 0 when no body was sent, and the histogram value is tagged
    with the request method, the path and the final status in decimal. *)
Theorem finish_reports_the_response req w :
  let w' := handle_request' req w in
  let events := request_events' req w in
  let root := AppSpan (w_next_span w) in
  let status := statusCode (w_res w') in
  events !! 3 =
    Some (ESetAttributes root
            [("http.status_code", aint status);
             ("http.response_size",
              or_else AStr (content_length <$> res_body (w_res w')) (aint 0))])
  ∧ span_attrs root (w_log w') !! "http.status_code" = Some (aint status)
  ∧ recorded_tags httpRequestDuration events =
      [[("method", req_method req); ("endpoint", req_path req);
        ("status_code", pretty status)]]
  ∧ (res_body (w_res w') = None →
     status = 304%Z
     ∧ events !! 3 =
         Some (ESetAttributes root
                 [("http.status_code", aint 304); ("http.response_size", aint 0)])).
Proof.
  cbv zeta. rewrite handle_request_log.
  run req w; split_and!; try reflexivity; try (intros [=]); try (intros _; split; reflexivity).
  all: cbn [span_attrs]; repeat case_decide; span_cases; apply finish_attrs_status.
Qed.

(** X9. A User-Agent header is copied to the attribute [http.user_agent] of
    the request span as it is, except that an empty header value gives
    "unknown", like a missing one. *)
Theorem user_agent_recorded req w ua :
  req_get req "User-Agent" = Some ua →
  span_attrs (AppSpan (w_next_span w)) (w_log (handle_request' req w)) !! "http.user_agent" =
    Some (AStr (if decide (ua = "") then "unknown" else ua)).
Proof.
  intros Hua. rewrite handle_request_log.
  assert (or_else AStr (Some ua) (AStr "unknown") =
          AStr (if decide (ua = "") then "unknown" else ua)) as Hor by (by destruct ua).
  run req w; rewrite Hua, Hor.
  all: cbn [span_attrs app]; repeat case_decide; span_cases.
  all: rewrite lookup_union_r by apply finish_attrs_no_user_agent;
    apply lookup_union_Some_l, entry_attrs_user_agent.
Qed.


(** X14. A request that matches no route, and is not cut short by the
    runtime, is answered 404 with the body
    [{error: "Not Found", path, timestamp}], [path] being the path requested. *)
Theorem unmatched_route_answers_404 req w :
  route_of req = RNotFound →
  w_throws w (w_tcur w) = None →
  let w' := handle_request' req w in
  statusCode (w_res w') = 404%Z
  ∧ res_body (w_res w') =
      Some (JObj [("error", JStr "Not Found"); ("path", JStr (req_path req));
                  ("timestamp", JStr (toISOString (w_clock w (N.succ (w_ccur w)))))]).
Proof.
  intros Hroute Hthrow. cbv zeta. revert Hthrow.
  destruct w as [clock ccur random rcur throws tcur memory uptime active next res log].
  exec. rewrite Hroute. intros Hthrow. exec. rewrite Hthrow. exec_all. split; reflexivity.
Qed.

(** X15. GET /health, when the runtime raises nothing, calls [res.json] on
    status 200 with the status "healthy", a timestamp, the uptime of the
    process and its memory usage as read.  Express sends that answer as it
    is, or, when it finds the request fresh, as a 304 without body. *)
Theorem health_reports_uptime_and_memory req w :
  route_of req = RHealth →
  w_throws w (w_tcur w) = None →
  let w' := handle_request' req w in
  let body := JObj [("status", JStr "healthy");
                    ("timestamp", JStr (toISOString (w_clock w (N.succ (w_ccur w)))));
                    ("uptime", JNum (w_uptime w));
                    ("memory", memory_json (w_memory w))] in
  sends (request_events' req w) = [(200%Z, body)]
  ∧ statusCode (w_res w') = (if req_fresh' req 200 body then 304 else 200)%Z
  ∧ res_body (w_res w') = (if req_fresh' req 200 body then None else Some body).
Proof.
  intros Hroute Hthrow. cbv zeta. revert Hthrow.
  destruct w as [clock ccur random rcur throws tcur memory uptime active next res log].
  exec. rewrite Hroute. intros Hthrow. exec. rewrite Hthrow.
  split_oracles; views; split_and!; reflexivity.
Qed.

(** X6. GET /db-query without an exception: the simulated latency is
    [floor(r * 200) + 50], the product being rounded to a double: an integer
    of [50, 250), at most one above the value exact arithmetic would give.
    The handler waits for a timer of that length, notes it on its child span
    with status 1, calls [res.json] on status 200 with [queryTime] equal to
    that latency followed by "ms" and the two fixed rows, and ends the child
    span after the response is written. *)
Theorem db_query_reports_its_latency w :
  unsent (w_res w) →
  random_value (w_random w (w_rcur w)) →
  w_throws w (w_tcur w) = None →
  w_throws w (N.succ (w_tcur w)) = None →
  let r := w_random w (w_rcur w) in
  let queryTime := (math_floor (js_mul r 200) + 50)%Z in
  let child := AppSpan (w_next_span w) in
  (50 <= queryTime < 250)%Z
  ∧ (math_floor (r * 200) + 50 <= queryTime <= math_floor (r * 200) + 51)%Z
  ∧ trace_of (db_query_handler toISOString content_length is_fresh) w =
      [EStartSpan child "database_query";
       ESetAttributes child
         [("db.system", AStr "postgresql"); ("db.operation", AStr "SELECT");
          ("db.table", AStr "users")];
       ETimeout queryTime;
       EAddEvent child "Query executed successfully" [("duration", aint queryTime)];
       ESetStatus child 1 None;
       ESend 200 (JObj [("message", JStr "Database query completed");
                        ("queryTime", JStr (pretty queryTime +:+ "ms"));
                        ("data", db_rows);
                        ("timestamp", JStr (toISOString (w_clock w (w_ccur w))))]);
       EEndSpan child].
Proof.
  intros Hres Hr Ht1 Ht2. cbv zeta. unfold math_floor.
  assert (Hc : (2 ^ (8 - 1) < 200 ≤ 2 ^ 8)%Z) by (by compute).
  pose proof (js_mul_draw_floor_range _ 200 8 Hr ltac:(lia) Hc) as Hrange.
  pose proof (js_mul_draw_floor _ 200 8 Hr ltac:(lia) Hc) as Hnear.
  change (inject_Z 200) with 200%Q in Hrange, Hnear.
  split; [lia|]. split; [lia|].
  clear Hr Hrange Hnear. revert Ht1 Ht2.
  destruct w as [clock ccur random rcur throws tcur memory uptime active next res log].
  destruct res as [status clen body sent listeners rq].
  destruct Hres as [Hstatus Hsent]; cbn in Hstatus, Hsent; subst status sent.
  exec. intros -> ->. split_oracles; views; reflexivity.
Qed.

(** X7. The /db-query handler never rejects and always ends its child span,
    last of all.  When the runtime raises [e] at either point of the try
    block, the handler records [e] on the child span, sets status 2 with the
    message of [e], and answers 500 with the fixed body
    [{error: "Database error"}], which does not depend on [e]; otherwise it
    sets status 1, records no exception and calls [res.json] once, on status
    200, an answer Express sends as a 304 when it finds the request fresh. *)
Theorem db_query_answers_its_own_errors w :
  unsent (w_res w) →
  let out := db_query_handler toISOString content_length is_fresh w in
  let events := new_events (db_query_handler toISOString content_length is_fresh) w in
  let child := AppSpan (w_next_span w) in
  out.1 = Ok ()
  ∧ head events = Some (EEndSpan child)
  ∧ span_state child (reverse events) = Ended
  ∧ match db_query_failure w with
    | Some e =>
        sends events = [(500%Z, JObj [("error", JStr "Database error")])]
        ∧ statusCode (w_res out.2) = 500%Z
        ∧ res_body (w_res out.2) = Some (JObj [("error", JStr "Database error")])
        ∧ span_exceptions child events = [e]
        ∧ events !! 2 = Some (ESetStatus child 2 (Some (err_message e)))
      | None =>
        (∃ body, sends events = [(200%Z, body)]
                 ∧ statusCode (w_res out.2) =
                     (if req_fresh' (res_req (w_res w)) 200 body then 304 else 200)%Z)
        ∧ span_exceptions child events = []
        ∧ events !! 2 = Some (ESetStatus child 1 None)
    end.
Proof.
  intros Hres. cbv zeta. unfold db_query_failure.
  run_handler w Hres; views; rewrite ?decide_True by done; split_and!; try reflexivity.
  all: eexists; (split; [reflexivity|]); fresh_cases; reflexivity.
Qed.

(** X8. GET /metrics-demo takes four draws: the first two are recorded into
    the gauges, as [r1 * 100] and [20 + r2 * 10]; the values echoed in the
    body come from the third and fourth draw and are not read back from the
    gauges.  Computed in doubles, the custom value lies in [0, 100) and the
    temperature in [20, 30]: the sum is rounded, and there is a draw for
    which it is 30. *)
Theorem metrics_demo_echoes_fresh_draws w :
  unsent (w_res w) →
  (∀ k, random_value (w_random w k)) →
  let c := w_rcur w in
  let r1 := w_random w c in
  let r2 := w_random w (N.succ c) in
  let r3 := w_random w (N.succ (N.succ c)) in
  let r4 := w_random w (N.succ (N.succ (N.succ c))) in
  trace_of (metrics_demo_handler toISOString content_length is_fresh) w =
    [ECreate Gauge "demo_custom_value";
     ERecord {| ins_kind := Gauge; ins_name := "demo_custom_value" |} (js_mul r1 100) [];
     ECreate Gauge "room_temperature_celsius";
     ERecord {| ins_kind := Gauge; ins_name := "room_temperature_celsius" |}
       (js_add 20 (js_mul r2 10)) [];
     ESend 200 (JObj [("message", JStr "Custom metrics generated");
                      ("timestamp", JStr (toISOString (w_clock w (w_ccur w))));
                      ("values", JObj [("customValue", JNum (js_mul r3 100));
                                       ("temperature", JNum (js_add 20 (js_mul r4 10)))])])]
  ∧ (0 <= js_mul r1 100 ∧ js_mul r1 100 < 100)%Q
  ∧ (20 <= js_add 20 (js_mul r2 10) ∧ js_add 20 (js_mul r2 10) <= 30)%Q
  ∧ (0 <= js_mul r3 100 ∧ js_mul r3 100 < 100)%Q
  ∧ (20 <= js_add 20 (js_mul r4 10) ∧ js_add 20 (js_mul r4 10) <= 30)%Q
  ∧ ∃ r, random_value r ∧ (js_add 20 (js_mul r 10) == 30)%Q.
Proof.
  intros Hres Hrnd. cbv zeta.
  assert (H100 : ∀ r, random_value r → (0 <= js_mul r 100 ∧ js_mul r 100 < 100)%Q).
  { intros r Hr. apply (js_mul_draw_range r 100 7 Hr); [lia|by compute]. }
  assert (H30 : ∀ r, random_value r →
            (20 <= js_add 20 (js_mul r 10) ∧ js_add 20 (js_mul r 10) <= 30)%Q).
  { intros r Hr. apply js_add_20_range; apply (js_mul_draw_range r 10 4 Hr); lia || by compute. }
  split; [|split_and!; try apply H100; try apply H30; try apply Hrnd].
  - clear Hrnd H100 H30. run_handler w Hres; views; reflexivity.
  - exists ((2 ^ 52 - 1) # (2 ^ 52))%Q. split; [|by vm_compute].
    split; [split; by compute|]. exists (2 ^ 52 - 1)%Z, (-52)%Z. split_and!; [lia|lia|lia|by vm_compute].
Qed.

(** *** Spans over the life of the process *)

Lemma count_events_reverse p l : count_events p (reverse l) = count_events p l.
Proof.
  induction l as [|e l IH]; [done|].
  rewrite reverse_cons, count_events_app, IH. cbn. lia.
Qed.

Lemma span_state_app s h tr :
  span_state s (h ++ tr) = foldl (span_step s) (span_state s h) tr.
Proof. unfold span_state. apply foldl_app. Qed.

(** Events about other spans leave the state of a span alone. *)
Lemma span_step_unmentioned s st tr :
  count_events (mentions s) tr = 0 → foldl (span_step s) st tr = st.
Proof.
  revert st. induction tr as [|e tr IH]; intros st Hcount; [done|].
  cbn in Hcount. cbn [foldl].
  destruct (mentions s e) eqn:He; [lia|].
  rewrite IH by lia. unfold mentions, is_start, is_end in He.
  destruct e; cbn; try done; case_decide; try done; subst;
    rewrite bool_decide_eq_true_2 in He by done; done.
Qed.

Lemma history_after_request req w :
  history (handle_request' req w) = history w ++ request_trace' req w.
Proof. unfold history, request_trace. by rewrite handle_request_log, reverse_app. Qed.

(** A request starts and ends only spans it numbers itself, from
    [w_next_span] on, and leaves each of them unstarted or ended. *)
Lemma request_spans_fresh req w s :
  (span_state s (request_trace' req w) = Unstarted ∨ span_state s (request_trace' req w) = Ended)
  ∧ (count_events (mentions s) (request_events' req w) = 0
     ∨ ∃ n, s = AppSpan n ∧ w_next_span w ≤ n < w_next_span (handle_request' req w))
  ∧ w_next_span w ≤ w_next_span (handle_request' req w).
Proof.
  run req w; views; cbv beta iota zeta delta [mentions is_start is_end count_events orb].
  all: repeat (case_decide || case_bool_decide);
    repeat first
      [ progress subst
      | match goal with
        | H : AppSpan _ = AppSpan _ |- _ => injection H as H
        | H : AutoSpan _ = AppSpan _ |- _ => discriminate H
        | H : AppSpan _ = AutoSpan _ |- _ => discriminate H
        end ];
    try lia; split_and!; try lia; auto.
  all: right; eexists; split; [reflexivity|lia].
Qed.

Lemma request_keeps_spans_settled req w :
  spans_settled w → spans_settled (handle_request' req w).
Proof.
  intros [Hstates Hfresh]. split.
  - intros s. rewrite history_after_request, span_state_app.
    destruct (request_spans_fresh req w s) as (Hs & [Hnone|(n & -> & Hn)] & _).
    + rewrite span_step_unmentioned; [apply Hstates|].
      unfold request_trace. by rewrite count_events_reverse.
    + assert (span_state (AppSpan n) (history w) = Unstarted) as ->; [|exact Hs].
      apply span_step_unmentioned. unfold history. rewrite count_events_reverse.
      apply Hfresh. lia.
  - intros n Hn. rewrite handle_request_log, count_events_app.
    destruct (request_spans_fresh req w (AppSpan n)) as (_ & [->|(m & [= <-] & Hm)] & Hnext).
    + rewrite Hfresh; lia.
    + lia.
Qed.

Lemma abandoned_request_span req w :
  span_state (AppSpan (w_next_span w)) (reverse (request_events_with' ClientGone req w)) = Open.
Proof. run req w; views; span_cases. Qed.

(** X11. Spans over the life of the process.  If no span is open and the
    spans of the log are numbered below [w_next_span], the same holds after
    any sequence of requests whose responses reach their clients, whatever
    the routes, the draws and the exceptions of the runtime.  A request
    whose client has gone leaves its request span open: nothing ends it. *)
Theorem serve_keeps_spans_settled reqs req w :
  spans_settled w →
  (Forall (λ rf, rf.2 = Finishes) reqs → spans_settled (serve_with' reqs w))
  ∧ span_state (AppSpan (w_next_span w)) (history (handle_request_with' ClientGone req w)) = Open.
Proof.
  intros Hw. split.
  - revert w Hw. induction reqs as [|[rq fate] reqs IH]; intros w Hw Hall; [done|].
    apply Forall_cons in Hall as [Hfate Hall]. cbn in Hfate. subst fate.
    rewrite serve_with_cons. apply IH; [|done].
    by apply request_keeps_spans_settled.
  - unfold history. rewrite handle_request_with_log, reverse_app, span_state_app.
    fold (history w).
    assert (span_state (AppSpan (w_next_span w)) (history w) = Unstarted) as Hroot.
    { apply span_step_unmentioned. unfold history. rewrite count_events_reverse.
      by apply Hw. }
    pose proof (abandoned_request_span req w) as Hopen.
    unfold span_state in Hopen, Hroot |- *. by rewrite Hroot.
Qed.

(** X17. The finish listener records the difference of two wall-clock
    readings without clamping it: the value is negative exactly when the
    reading of the listener is below the start time it captured. *)
Theorem duration_sign_follows_the_clock h w :
  let elapsed := (w_clock w (w_ccur w) - fh_startTime h)%Z in
  recorded_values httpRequestDuration (new_events (on_finish h) w) =
    [(inject_Z elapsed / 1000)%Q]
  ∧ ((0 <= inject_Z elapsed / 1000)%Q ↔ (fh_startTime h <= w_clock w (w_ccur w))%Z).
Proof.
  cbv zeta. split; [apply on_finish_records|].
  generalize (w_clock w (w_ccur w)) (fh_startTime h). intros now start.
  unfold Qle, Qdiv, Qmult, Qinv, inject_Z; cbn. lia.
Qed.

End Properties.

(** ** The model at the sample inputs *)

Example routing_ignores_case_and_trailing_slash :
  route_of {| req_method := "HEAD"; req_path := "/Hello/"; req_url := "/Hello/?x=1";
              req_headers := ∅ |} = RHello
  ∧ route_of {| req_method := "POST"; req_path := "/hello"; req_url := "/hello";
                req_headers := ∅ |} = RNotFound.
Proof. split; vm_compute; reflexivity. Qed.

(** An exception in a synchronous handler reaches the error handler. *)
Example unhandled_exception_trace :
  request_trace sample_iso sample_content_length sample_id sample_sqrt sample_fresh
    (get "/health") failing_world =
  [EStartSpan (AppSpan 0) "GET /health";
   ESetAttributes (AppSpan 0)
     [("http.method", AStr "GET"); ("http.url", AStr "/health");
      ("http.user_agent", AStr "unknown")];
   EAdd httpRequestsTotal 1 [("method", "GET"); ("endpoint", "/health")];
   EAdd activeConnections 1 [];
   ERecordException (AutoSpan 0) (mkError "boom" "Error: boom at index.js:1:1");
   EConsoleError "Unhandled error:" (LErr (mkError "boom" "Error: boom at index.js:1:1"));
   ESend 500 (JObj [("error", JStr "Internal Server Error");
                    ("timestamp", JStr "1700000000007")]);
   ESetAttributes (AppSpan 0)
     [("http.status_code", aint 500); ("http.response_size", AStr "42")];
   ERecord httpRequestDuration (14 # 1000)
     [("method", "GET"); ("endpoint", "/health"); ("status_code", "500")];
   EAdd activeConnections (-1) [];
   EEndSpan (AppSpan 0)].
Proof. vm_compute. reflexivity. Qed.

(** An exception inside the try block of /db-query is answered by its catch
    block; the child span is ended before the response finishes. *)
Example db_query_error_trace :
  request_trace sample_iso sample_content_length sample_id sample_sqrt sample_fresh
    (get "/db-query") failing_world =
  [EStartSpan (AppSpan 0) "GET /db-query";
   ESetAttributes (AppSpan 0)
     [("http.method", AStr "GET"); ("http.url", AStr "/db-query");
      ("http.user_agent", AStr "unknown")];
   EAdd httpRequestsTotal 1 [("method", "GET"); ("endpoint", "/db-query")];
   EAdd activeConnections 1 [];
   EStartSpan (AppSpan 1) "database_query";
   ERecordException (AppSpan 1) (mkError "boom" "Error: boom at index.js:1:1");
   ESetStatus (AppSpan 1) 2 (Some "boom");
   ESend 500 (JObj [("error", JStr "Database error")]);
   EEndSpan (AppSpan 1);
   ESetAttributes (AppSpan 0)
     [("http.status_code", aint 500); ("http.response_size", AStr "42")];
   ERecord httpRequestDuration (7 # 1000)
     [("method", "GET"); ("endpoint", "/db-query"); ("status_code", "500")];
   EAdd activeConnections (-1) [];
   EEndSpan (AppSpan 0)].
Proof. vm_compute. reflexivity. Qed.

(** A conditional request that Express finds fresh is answered 304, without
    body and without Content-Length, and that is what the finish listener
    reports. *)
Example fresh_request_is_answered_304 :
  let w' := handle_request sample_iso sample_content_length sample_id sample_sqrt sample_fresh
              (get_if_none_match "/health" "*") sample_world in
  sent_statuses (w_log w') = [200%Z]
  ∧ statusCode (w_res w') = 304%Z
  ∧ res_body (w_res w') = None
  ∧ w_log w' !! 3 =
      Some (ESetAttributes (AppSpan 0)
              [("http.status_code", aint 304); ("http.response_size", aint 0)])
  ∧ recorded_tags httpRequestDuration (w_log w') =
      [[("method", "GET"); ("endpoint", "/health"); ("status_code", "304")]].
Proof. vm_compute. split_and!; reflexivity. Qed.

(** When the client has gone the finish listener does not run: the request
    span stays open and the active-connection counter one up. *)
Example abandoned_request_trace :
  w_log (handle_request_with sample_iso sample_content_length sample_id sample_sqrt sample_fresh
           ClientGone (get "/health") sample_world) =
  [ESend 200 (JObj [("status", JStr "healthy"); ("timestamp", JStr "1700000000007");
                    ("uptime", JNum (3 # 2)); ("memory", memory_json sample_memory)]);
   EAdd activeConnections 1 [];
   EAdd httpRequestsTotal 1 [("method", "GET"); ("endpoint", "/health")];
   ESetAttributes (AppSpan 0)
     [("http.method", AStr "GET"); ("http.url", AStr "/health");
      ("http.user_agent", AStr "unknown")];
   EStartSpan (AppSpan 0) "GET /health"].
Proof. vm_compute. reflexivity. Qed.

(** Products of doubles are rounded before they are floored: the delay of
    /hello and the latency of /db-query can be one above the floor of the
    exact product, and the temperature of /metrics-demo can be 30. *)
Example rounded_products :
  math_floor (js_mul (1062849512059437 # 4503599627370496) 500) = 118%Z
  ∧ math_floor ((1062849512059437 # 4503599627370496) * 500) = 117%Z
  ∧ (math_floor (js_mul (1080863910568919 # 4503599627370496) 200) + 50)%Z = 98%Z
  ∧ (math_floor ((1080863910568919 # 4503599627370496) * 200) + 50)%Z = 97%Z
  ∧ (js_add 20 (js_mul (4503599627370495 # 4503599627370496) 10) == 30)%Q.
Proof. vm_compute. split_and!; reflexivity. Qed.

(** The draw of the sample world is a double of [0, 1). *)
Lemma quarter_is_random_value : random_value (1 # 4).
Proof.
  split; [split; [discriminate | reflexivity]|].
  exists 1%Z, (-2)%Z. split_and!; [lia | lia | lia | reflexivity].
Defined.

(** ** The theorems at the sample inputs *)

Lemma user_agent_defaults_to_unknown_witness :
  req_get (get "/hello") "User-Agent" = None
  ∧ span_attrs (AppSpan (w_next_span sample_world))
      (w_log (handle_request sample_iso sample_content_length sample_id sample_sqrt sample_fresh
                (get "/hello") sample_world))
      !! "http.user_agent" = Some (AStr "unknown").
Proof.
  assert (H : req_get (get "/hello") "User-Agent" = None) by reflexivity.
  split; [exact H|].
  pose proof (user_agent_defaults_to_unknown sample_iso sample_content_length sample_id
                sample_sqrt sample_fresh (get "/hello") sample_world H) as [_ Hattr].
  exact Hattr.
Defined.

Lemma flaky_fails_below_threshold_witness :
  unsent (w_res sample_world)
  ∧ (statusCode (w_res (flaky_handler sample_iso sample_content_length sample_fresh
                          sample_world).2) = 500%Z
     ↔ should_fail (w_random sample_world (w_rcur sample_world)) = true).
Proof.
  assert (H : unsent (w_res sample_world)) by (split; reflexivity).
  split; [exact H|].
  pose proof (flaky_fails_below_threshold sample_iso sample_content_length sample_fresh
                sample_world H) as (_ & _ & _ & Hstatus & _).
  exact Hstatus.
Defined.

Lemma hello_waits_for_its_delay_witness :
  unsent (w_res sample_world)
  ∧ random_value (w_random sample_world (w_rcur sample_world))
  ∧ (0 <= math_floor (js_mul (w_random sample_world (w_rcur sample_world)) 500) < 500)%Z.
Proof.
  assert (H : unsent (w_res sample_world)) by (split; reflexivity).
  pose proof quarter_is_random_value as Hr.
  split; [exact H|]. split; [exact Hr|].
  exact (proj1 (hello_waits_for_its_delay sample_content_length sample_id sample_fresh
                  sample_world H Hr)).
Defined.

Lemma memory_attaches_heap_and_external_witness :
  unsent (w_res sample_world)
  ∧ span_attrs (AutoSpan 0)
      (new_events (memory_handler sample_iso sample_content_length sample_fresh) sample_world)
      !! "memory.rss" = None.
Proof.
  assert (H : unsent (w_res sample_world)) by (split; reflexivity).
  split; [exact H|].
  pose proof (memory_attaches_heap_and_external sample_iso sample_content_length sample_fresh
                sample_world H)
    as (_ & _ & Hrss).
  exact (Hrss 0).
Defined.

Lemma cpu_intensive_runs_a_million_rounds_witness :
  (∀ z, 0 <= sample_sqrt z)%Q
  ∧ (∀ k, unit_interval (w_random sample_world k))
  ∧ unsent (w_res sample_world)
  ∧ w_rcur (cpu_intensive_handler sample_iso sample_content_length sample_sqrt sample_fresh sample_world).2
    = (w_rcur sample_world + 1000000)%N.
Proof.
  assert (Hsqrt : (∀ z, 0 <= sample_sqrt z)%Q).
  { intros z. unfold sample_sqrt, Qle. simpl. pose proof (Z.sqrt_nonneg z). lia. }
  assert (Hrnd : ∀ k, unit_interval (w_random sample_world k))
    by (intros k; split; [discriminate | reflexivity]).
  assert (H : unsent (w_res sample_world)) by (split; reflexivity).
  split; [exact Hsqrt|]. split; [exact Hrnd|]. split; [exact H|].
  pose proof (cpu_intensive_runs_a_million_rounds sample_iso sample_content_length sample_sqrt
                sample_fresh sample_world Hsqrt Hrnd H) as (_ & Hdraws & _).
  exact Hdraws.
Defined.

(** ** Where the code departs from the specification *)

(** C4 as stated fails: a request to /metrics-demo creates two instruments
    while it is being processed. *)
Lemma metrics_demo_creates_instruments_per_request :
  count_events is_create
    (request_trace sample_iso sample_content_length sample_id sample_sqrt sample_fresh
       (get "/metrics-demo") sample_world) = 2.
Proof. vm_compute. reflexivity. Qed.

(** C6 as stated fails: the body of /memory reports the resident set size,
    but no attribute of the active span holds its raw byte value. *)
Lemma memory_omits_resident_set :
  res_body (w_res (memory_handler sample_iso sample_content_length sample_fresh sample_world).2) =
    Some (JObj [("memory", JObj [("heapUsed", JStr "10 MB"); ("heapTotal", JStr "20 MB");
                                 ("external", JStr "2 MB"); ("rss", JStr "50 MB")]);
                ("timestamp", JStr "1700000000000")])
  ∧ ¬ ∃ k, span_attrs (AutoSpan 0)
             (new_events (memory_handler sample_iso sample_content_length sample_fresh) sample_world)
             !! k = Some (aint (rss sample_memory)).
Proof.
  split; [vm_compute; reflexivity|].
  intros [k Hk].
  change (span_attrs (AutoSpan 0)
            (new_events (memory_handler sample_iso sample_content_length sample_fresh) sample_world))
    with (list_to_map (memory_attrs sample_memory) ∪ (∅ : gmap string AttrValue)) in Hk.
  rewrite (right_id_L ∅ (∪)) in Hk.
  apply memory_attrs_values in Hk as [Hk|[Hk|Hk]]; discriminate Hk.
Qed.

(** ** The telemetry bootstrap *)

(** X12. On SIGTERM the bootstrap shuts the SDK down and, once the shutdown
    has settled, exits with code 0, after logging "SDK shut down" on success
    or the error on failure.  There is no timer: while the shutdown is
    pending the process does not exit. *)
Theorem sigterm_exits_zero_once_shutdown_settles (sdk : Tracing.Sdk) :
  Tracing.effects_of (Tracing.on_sigterm sdk) =
    Tracing.SdkShutdown ::
    match Tracing.shutdown_result sdk with
    | Tracing.Fulfilled _ => [Tracing.ConsoleLog "SDK shut down"; Tracing.ProcessExit 0]
    | Tracing.Rejected e => [Tracing.ConsoleError None e; Tracing.ProcessExit 0]
    | Tracing.Pending => []
    end
  ∧ Tracing.exits (Tracing.effects_of (Tracing.on_sigterm sdk)) =
      match Tracing.shutdown_result sdk with
      | Tracing.Pending => []
      | _ => [0%Z]
      end.
Proof. destruct sdk as [start [[]|e|]]; split; reflexivity. Qed.

(** X13. Loading the bootstrap creates the trace, metric and log exporters
    for the same collector, builds the SDK from the first two, starts it and
    registers the SIGTERM listener.  A failed start is logged and swallowed:
    the chain never rejects and the process is not exited. *)
Theorem failed_start_is_logged_and_survived (sdk : Tracing.Sdk) :
  (Tracing.load sdk []).1 =
    match Tracing.start_result sdk with
    | Tracing.Pending => Tracing.Pending
    | _ => Tracing.Fulfilled ()
    end
  ∧ Tracing.exits (Tracing.effects_of (Tracing.load sdk)) = []
  ∧ Tracing.effects_of (Tracing.load sdk) =
      [Tracing.NewExporter {| Tracing.exp_signal := Tracing.Traces;
                              Tracing.exp_url := Tracing.collector |};
       Tracing.NewExporter {| Tracing.exp_signal := Tracing.Metrics;
                              Tracing.exp_url := Tracing.collector |};
       Tracing.NewExporter {| Tracing.exp_signal := Tracing.Logs;
                              Tracing.exp_url := Tracing.collector |};
       Tracing.NewSdk Tracing.sdk_config;
       Tracing.SdkStart;
       Tracing.OnSignal "SIGTERM"] ++
      match Tracing.start_result sdk with
      | Tracing.Fulfilled _ => [Tracing.ConsoleLog "✅ OpenTelemetry SDK started"]
      | Tracing.Rejected e =>
          [Tracing.ConsoleError (Some "Error starting OpenTelemetry SDK") e]
      | Tracing.Pending => []
      end.
Proof. destruct sdk as [[[]|e|] stop]; split_and!; reflexivity. Qed.

(** ** The further properties at the sample inputs *)

Lemma serve_keeps_spans_settled_witness :
  spans_settled sample_world
  ∧ span_state (AppSpan (w_next_span sample_world))
      (history (handle_request_with sample_iso sample_content_length sample_id sample_sqrt
                  sample_fresh ClientGone (get "/hello") sample_world)) = Open.
Proof.
  assert (H : spans_settled sample_world) by (split; [intros s; left|]; reflexivity).
  split; [exact H|].
  exact (proj2 (serve_keeps_spans_settled sample_iso sample_content_length sample_id sample_sqrt
                  sample_fresh [(get "/db-query", Finishes)] (get "/hello") sample_world H)).
Defined.

Lemma module_instruments_created_once_witness :
  activeConnections ∈ module_instruments
  ∧ count_events (is_create_of UpDownCounter "active_connections")
      (w_log (serve sample_iso sample_content_length sample_id sample_sqrt sample_fresh
                [get "/metrics-demo"; get "/hello"] (boot sample_world))) = 1.
Proof.
  assert (H : activeConnections ∈ module_instruments)
    by (unfold module_instruments; do 2 apply list_elem_of_further; apply list_elem_of_here).
  split; [exact H|].
  exact (module_instruments_created_once sample_iso sample_content_length sample_id sample_sqrt sample_fresh
           [get "/metrics-demo"; get "/hello"] sample_world activeConnections H).
Defined.

Lemma user_agent_recorded_witness :
  req_get (get_as "/hello" "curl/8.5.0") "User-Agent" = Some "curl/8.5.0"
  ∧ span_attrs (AppSpan (w_next_span sample_world))
      (w_log (handle_request sample_iso sample_content_length sample_id sample_sqrt sample_fresh
                (get_as "/hello" "curl/8.5.0") sample_world))
      !! "http.user_agent" = Some (AStr "curl/8.5.0").
Proof.
  assert (H : req_get (get_as "/hello" "curl/8.5.0") "User-Agent" = Some "curl/8.5.0")
    by (vm_compute; reflexivity).
  split; [exact H|].
  exact (user_agent_recorded sample_iso sample_content_length sample_id sample_sqrt sample_fresh
           (get_as "/hello" "curl/8.5.0") sample_world "curl/8.5.0" H).
Defined.


Lemma unmatched_route_answers_404_witness :
  route_of (get "/nope") = RNotFound
  ∧ w_throws sample_world (w_tcur sample_world) = None
  ∧ statusCode (w_res (handle_request sample_iso sample_content_length sample_id sample_sqrt sample_fresh
                         (get "/nope") sample_world)) = 404%Z.
Proof.
  assert (H1 : route_of (get "/nope") = RNotFound) by (vm_compute; reflexivity).
  assert (H2 : w_throws sample_world (w_tcur sample_world) = None) by (vm_compute; reflexivity).
  split; [exact H1|]. split; [exact H2|].
  exact (proj1 (unmatched_route_answers_404 sample_iso sample_content_length sample_id
                  sample_sqrt sample_fresh (get "/nope") sample_world H1 H2)).
Defined.

Lemma health_reports_uptime_and_memory_witness :
  route_of (get_if_none_match "/health" "*") = RHealth
  ∧ w_throws sample_world (w_tcur sample_world) = None
  ∧ sends (request_events sample_iso sample_content_length sample_id sample_sqrt sample_fresh
             (get_if_none_match "/health" "*") sample_world) =
      [(200%Z, JObj [("status", JStr "healthy");
                     ("timestamp",
                      JStr (sample_iso (w_clock sample_world (N.succ (w_ccur sample_world)))));
                     ("uptime", JNum (w_uptime sample_world));
                     ("memory", memory_json (w_memory sample_world))])].
Proof.
  assert (H1 : route_of (get_if_none_match "/health" "*") = RHealth) by (vm_compute; reflexivity).
  assert (H2 : w_throws sample_world (w_tcur sample_world) = None) by (vm_compute; reflexivity).
  split; [exact H1|]. split; [exact H2|].
  exact (proj1 (health_reports_uptime_and_memory sample_iso sample_content_length sample_id
                  sample_sqrt sample_fresh (get_if_none_match "/health" "*") sample_world H1 H2)).
Defined.

Lemma db_query_reports_its_latency_witness :
  unsent (w_res sample_world)
  ∧ random_value (w_random sample_world (w_rcur sample_world))
  ∧ w_throws sample_world (w_tcur sample_world) = None
  ∧ w_throws sample_world (N.succ (w_tcur sample_world)) = None
  ∧ (50 <= math_floor (js_mul (w_random sample_world (w_rcur sample_world)) 200) + 50 < 250)%Z.
Proof.
  assert (H : unsent (w_res sample_world)) by (split; reflexivity).
  pose proof quarter_is_random_value as Hr.
  assert (H1 : w_throws sample_world (w_tcur sample_world) = None) by (vm_compute; reflexivity).
  assert (H2 : w_throws sample_world (N.succ (w_tcur sample_world)) = None) by (vm_compute; reflexivity).
  split; [exact H|]. split; [exact Hr|]. split; [exact H1|]. split; [exact H2|].
  exact (proj1 (db_query_reports_its_latency sample_iso sample_content_length sample_fresh
                  sample_world H Hr H1 H2)).
Defined.

Lemma db_query_answers_its_own_errors_witness :
  unsent (w_res failing_world)
  ∧ (db_query_handler sample_iso sample_content_length sample_fresh failing_world).1 = Ok ().
Proof.
  assert (H : unsent (w_res failing_world)) by (split; reflexivity).
  split; [exact H|].
  exact (proj1 (db_query_answers_its_own_errors sample_iso sample_content_length sample_fresh
                  failing_world H)).
Defined.

Lemma metrics_demo_echoes_fresh_draws_witness :
  unsent (w_res sample_world)
  ∧ (∀ k, random_value (w_random sample_world k))
  ∧ (0 <= js_mul (w_random sample_world (w_rcur sample_world)) 100
     ∧ js_mul (w_random sample_world (w_rcur sample_world)) 100 < 100)%Q.
Proof.
  assert (H : unsent (w_res sample_world)) by (split; reflexivity).
  assert (Hrnd : ∀ k, random_value (w_random sample_world k))
    by (intros k; exact quarter_is_random_value).
  split; [exact H|]. split; [exact Hrnd|].
  exact (proj1 (proj2 (metrics_demo_echoes_fresh_draws sample_iso sample_content_length
                         sample_fresh sample_world H Hrnd))).
Defined.
